(** * Lead resolution core: cache, phone keys, address parsing, person
      extraction and result accumulation

    A shallow embedding of the resolution-and-caching engine found in
    [cache_manager.py] (class [CacheManager]), [lead_processor_v2.py]
    ([parse_address], [clean_phone], [extract_age], [format_address]) and
    [dialer_gui.py] ([extract_people_from_data], [process_lookup_data],
    [accumulate_phone_results], [accumulate_address_results],
    [add_to_call_history], [html_escape]).

    Conventions.
    - A Python [str] is a list of Unicode code points ([N]).  What the
      interpreter decides from its Unicode tables for code points outside
      ASCII (decimal digits, white space, word characters, lower-casing,
      caseless matching) and how it prints a non-string object ([str(x)])
      is not code of this program: it is taken as a parameter, the record
      [PyRuntime].  On ASCII the behaviour is written out.
    - A JSON document is a [value]; a Python dict is an association list in
      insertion order, a missing key is [None] of [dict_get].
    - A raised exception is [None] of the [option] monad ([res]).
    - The clock and the outcome of file operations are explicit arguments.
    - The functions are total: the interpreter's recursion limit on very
      deep documents is not modelled.
    - Of the two accumulators only the update of [self.current_results]
      is modelled; the spreadsheet, the display and the AI call that
      follow it read the list and do not change it. *)

From stdpp Require Import base option list strings gmap.
From Stdlib Require Import Ascii ZArith NArith Lia.

Set Default Proof Using "Type".
Set Warnings "-register-all".

(* ===================================================================== *)
(** ** Text *)
(* ===================================================================== *)

Abbreviation char := N (only parsing).
Abbreviation str := (list N) (only parsing).

(** An ASCII literal as a Python string. *)
Definition ustr (s : string) : str :=
  map Ascii.N_of_ascii (String.list_ascii_of_string s).

Definition ch (a : Ascii.ascii) : char := Ascii.N_of_ascii a.

Fixpoint str_eqb (s t : str) : bool :=
  match s, t with
  | [], [] => true
  | c :: s', d :: t' => (c =? d)%N && str_eqb s' t'
  | _, _ => false
  end.

Definition is_ascii (c : char) : bool := (c <? 128)%N.
Definition ascii_isdigit (c : char) : bool := (48 <=? c)%N && (c <=? 57)%N.
Definition ascii_isupper (c : char) : bool := (65 <=? c)%N && (c <=? 90)%N.
Definition ascii_islower (c : char) : bool := (97 <=? c)%N && (c <=? 122)%N.
Definition ascii_isalnum (c : char) : bool :=
  ascii_isdigit c || ascii_isupper c || ascii_islower c.
(** [str.isspace] on ASCII: TAB..CR, FS..US and the space. *)
Definition ascii_isspace (c : char) : bool :=
  ((9 <=? c)%N && (c <=? 13)%N) || ((28 <=? c)%N && (c <=? 32)%N).
Definition ascii_lower (c : char) : char :=
  if ascii_isupper c then (c + 32)%N else c.

(* ===================================================================== *)
(** ** JSON documents as Python objects *)
(* ===================================================================== *)

(** A float is kept as the number it denotes: [FFin m e] is [m * 2^e]. *)
Inductive pyfloat :=
| FNan
| FInf (neg : bool)
| FFin (m e : Z).

Inductive value :=
| VNone
| VBool (b : bool)
| VInt (z : Z)
| VFloat (f : pyfloat)
| VStr (s : str)
| VList (l : list value)
| VDict (d : list (str * value)).

Abbreviation dict := (list (str * value)) (only parsing).

(** The interpreter's tables and printers (see the header). *)
Record PyRuntime := {
  uni_isdecimal : char -> bool;  (* regex \d, code points >= 128 *)
  uni_isdigit : char -> bool;    (* str.isdigit, code points >= 128 *)
  uni_isspace : char -> bool;    (* str.isspace and regex \s, >= 128 *)
  uni_isalnum : char -> bool;    (* regex \w, >= 128 *)
  uni_lower : str -> str;        (* str.lower of a non-ASCII string *)
  uni_caseless : char -> char -> bool;
                                 (* re.IGNORECASE, pattern char against a
                                    subject char when one is not ASCII *)
  py_str : value -> str          (* str(x) of an object that is not a str *)
}.

(** Truth value of an object ([if x:], [not x], [x or y]). *)
Definition truthy (v : value) : bool :=
  match v with
  | VNone => false
  | VBool b => b
  | VInt z => negb (z =? 0)%Z
  | VFloat FNan => true
  | VFloat (FInf _) => true
  | VFloat (FFin m _) => negb (m =? 0)%Z
  | VStr s => negb (bool_decide (s = []))
  | VList l => negb (bool_decide (length l = 0))
  | VDict d => negb (bool_decide (length d = 0))
  end.

(** [x or y]. *)
Definition py_or (x y : value) : value := if truthy x then x else y.

(** Lookup in a dict; the keys of a Python dict are distinct, so the
    first binding is the only one. *)
Fixpoint dict_get (k : str) (d : dict) : option value :=
  match d with
  | [] => None
  | (k', v) :: d' => if str_eqb k k' then Some v else dict_get k d'
  end.

(** [obj.get(k)] and [obj.get(k, dflt)]. *)
Definition get (k : str) (d : dict) : value := default VNone (dict_get k d).
Definition get_or (k : str) (dflt : value) (d : dict) : value :=
  default dflt (dict_get k d).

(** Numbers compare by value across bool, int and float. *)
Definition num_view (v : value) : option pyfloat :=
  match v with
  | VBool b => Some (FFin (if b then 1 else 0) 0)
  | VInt z => Some (FFin z 0)
  | VFloat f => Some f
  | _ => None
  end.

Definition float_eq (x y : pyfloat) : bool :=
  match x, y with
  | FInf a, FInf b => Bool.eqb a b
  | FFin m1 e1, FFin m2 e2 =>
      let e := Z.min e1 e2 in
      (m1 * 2 ^ (e1 - e) =? m2 * 2 ^ (e2 - e))%Z
  | _, _ => false
  end.

(** Python's [==] on documents. *)
Fixpoint py_eq (a b : value) {struct a} : bool :=
  match a, b with
  | VNone, VNone => true
  | VStr s, VStr t => str_eqb s t
  | VList l, VList m =>
      (fix go (l m : list value) : bool :=
         match l, m with
         | [], [] => true
         | x :: l', y :: m' => py_eq x y && go l' m'
         | _, _ => false
         end) l m
  | VDict d, VDict e =>
      (length d =? length e) &&
      (fix go (d : dict) : bool :=
         match d with
         | [] => true
         | (k, v) :: d' =>
             match dict_get k e with
             | Some w => py_eq v w
             | None => false
             end && go d'
         end) d
  | _, _ =>
      match num_view a, num_view b with
      | Some x, Some y => float_eq x y
      | _, _ => false
      end
  end.

(** [x in l] for a list [l], by [==] alone.  Python tests identity
    before equality; the two differ only on a value that holds a NaN,
    which is unequal to itself, and [json.loads] yields one shared NaN
    object: on such a value Python's test succeeds where this one does
    not.  On values that equal themselves the two agree; a statement
    that depends on the difference carries that hypothesis. *)
Definition py_in (x : value) (l : list value) : bool := existsb (py_eq x) l.
Definition str_in (x : str) (l : list str) : bool := existsb (str_eqb x) l.

(** [pd.isna] on a spreadsheet cell. *)
Definition pd_isna (v : value) : bool :=
  match v with
  | VNone => true
  | VFloat FNan => true
  | _ => false
  end.

(** Exceptions. *)
Abbreviation res := option (only parsing).
Abbreviation Raise := None (only parsing).
Abbreviation Ok := Some (only parsing).

(* ===================================================================== *)
(** ** String methods *)
(* ===================================================================== *)

Fixpoint drop_while {A} (p : A -> bool) (l : list A) : list A :=
  match l with
  | [] => []
  | x :: l' => if p x then drop_while p l' else l
  end.

Definition lstrip_by (p : char -> bool) (s : str) : str := drop_while p s.
Definition rstrip_by (p : char -> bool) (s : str) : str :=
  rev (drop_while p (rev s)).
Definition one_of (set : str) (c : char) : bool := existsb (N.eqb c) set.

Definition startswith (pre s : str) : bool := str_eqb (take (length pre) s) pre.

(** [sep.join(parts)]. *)
Fixpoint join (sep : str) (parts : list str) : str :=
  match parts with
  | [] => []
  | [p] => p
  | p :: ps => p ++ sep ++ join sep ps
  end.

(** [s.split(c)] for a one-character separator. *)
Fixpoint split_on (c : char) (s : str) : list str :=
  match s with
  | [] => [[]]
  | d :: s' =>
      if (d =? c)%N then [] :: split_on c s'
      else match split_on c s' with
           | w :: ws => (d :: w) :: ws
           | [] => [[d]]
           end
  end.

(** [s.replace(c, '')]. *)
Definition remove_char (c : char) (s : str) : str :=
  List.filter (fun d => negb (d =? c)%N) s.

(** [a in s] for strings: [a] occurs in [s]. *)
Fixpoint contains (a s : str) : bool :=
  startswith a s || match s with [] => false | _ :: s' => contains a s' end.

Section Text.
Variable R : PyRuntime.

Definition isdecimal (c : char) : bool :=
  if is_ascii c then ascii_isdigit c else uni_isdecimal R c.
Definition isdigit_char (c : char) : bool :=
  if is_ascii c then ascii_isdigit c else uni_isdigit R c.
Definition isspace (c : char) : bool :=
  if is_ascii c then ascii_isspace c else uni_isspace R c.
Definition isword (c : char) : bool :=
  if is_ascii c then ascii_isalnum c || (c =? 95)%N else uni_isalnum R c.

(** [s.lower()]. *)
Definition lower (s : str) : str :=
  if forallb is_ascii s then map ascii_lower s else uni_lower R s.

(** A pattern character against a subject character under
    [re.IGNORECASE]. *)
Definition caseless_eq (c d : char) : bool :=
  if is_ascii c && is_ascii d then (ascii_lower c =? ascii_lower d)%N
  else uni_caseless R c d.

(** [s.strip()], [s.split()], [s.isdigit()]. *)
Definition strip (s : str) : str := rstrip_by isspace (lstrip_by isspace s).

Fixpoint split_ws (s : str) : list str :=
  match s with
  | [] => []
  | c :: s' =>
      if isspace c then split_ws s'
      else match s' with
           | [] => [[c]]
           | d :: _ =>
               if isspace d then [c] :: split_ws s'
               else match split_ws s' with
                    | w :: ws => (c :: w) :: ws
                    | [] => [[c]]
                    end
           end
  end.

Definition isdigit (s : str) : bool :=
  negb (bool_decide (length s = 0)) && forallb isdigit_char s.

(** [str(x)]. *)
Definition to_str (v : value) : str :=
  match v with
  | VStr s => s
  | _ => py_str R v
  end.
End Text.

(* ===================================================================== *)
(** ** The fragment of Python's [re] the program uses *)
(* ===================================================================== *)

Module Re.

(** Patterns.  [Cls p] is a character class given by its predicate
    (a category escape or a bracket set); the case-insensitive
    patterns of the program hold no bracket set, so the flag only
    changes how [Lit] compares. *)
Inductive regex :=
| Lit (c : char)
| Cls (p : char -> bool)
| Cat (r1 r2 : regex)
| Alt (r1 r2 : regex)
| Star (r : regex)            (* r*  greedy *)
| Opt (r : regex)             (* r?  greedy *)
| Rep (n : nat) (r : regex)   (* r{n} *)
| Group (r : regex)           (* ( r ), capturing group 1 *)
| NonCap (r : regex)          (* (?: r ) *)
| WordB                       (* \b *)
| Eos.                        (* $ without MULTILINE *)

(** Where the matcher stands: the character before the position, the
    rest of the subject, the position, and the span of group 1. *)
Record mstate := MState {
  m_prev : option char;
  m_rest : str;
  m_pos : nat;
  m_grp : option (nat * nat)
}.

Definition advance (st : mstate) : option mstate :=
  match m_rest st with
  | [] => None
  | d :: t => Some (MState (Some d) t (S (m_pos st)) (m_grp st))
  end.

Definition set_grp (a b : nat) (st : mstate) : mstate :=
  MState (m_prev st) (m_rest st) (m_pos st) (Some (a, b)).

(** The literal string [s] as a pattern. *)
Fixpoint lits (s : str) : regex :=
  match s with
  | [] => Rep 0 (Lit 0%N)
  | [c] => Lit c
  | c :: s' => Cat (Lit c) (lits s')
  end.

(** First alternative first. *)
Fixpoint alts (r : regex) (rs : list regex) : regex :=
  match rs with
  | [] => r
  | r' :: rs' => Alt r (alts r' rs')
  end.

Section Matcher.
Variable R : PyRuntime.
Variable ic : bool.       (* flags=re.IGNORECASE *)

Definition at_boundary (st : mstate) : bool :=
  let before := match m_prev st with Some c => isword R c | None => false end in
  let after := match m_rest st with c :: _ => isword R c | [] => false end in
  xorb before after.

(** Backtracking matcher in continuation-passing style: [k] is what
    remains to be matched, the first success in priority order wins. *)
Fixpoint rmatch (r : regex) (st : mstate)
         (k : mstate -> option mstate) {struct r} : option mstate :=
  match r with
  | Lit c =>
      match m_rest st with
      | d :: _ =>
          if (if ic then caseless_eq R c d else (c =? d)%N)
          then advance st ≫= k else None
      | [] => None
      end
  | Cls p =>
      match m_rest st with
      | d :: _ => if p d then advance st ≫= k else None
      | [] => None
      end
  | Cat r1 r2 => rmatch r1 st (fun st1 => rmatch r2 st1 k)
  | Alt r1 r2 =>
      match rmatch r1 st k with
      | Some m => Some m
      | None => rmatch r2 st k
      end
  | Opt r1 =>
      match rmatch r1 st k with
      | Some m => Some m
      | None => k st
      end
  | Star r1 =>
      (fix loop (n : nat) (st : mstate) {struct n} : option mstate :=
         match n with
         | O => k st
         | S n' =>
             match rmatch r1 st
                     (fun st1 => if m_pos st <? m_pos st1
                                 then loop n' st1 else None) with
             | Some m => Some m
             | None => k st
             end
         end) (S (length (m_rest st))) st
  | Rep n r1 =>
      (fix rep (n : nat) (st : mstate) {struct n} : option mstate :=
         match n with
         | O => k st
         | S n' => rmatch r1 st (fun st1 => rep n' st1)
         end) n st
  | Group r1 =>
      rmatch r1 st (fun st1 => k (set_grp (m_pos st) (m_pos st1) st1))
  | NonCap r1 => rmatch r1 st k
  | WordB => if at_boundary st then k st else None
  | Eos =>
      match m_rest st with
      | [] => k st
      | [c] => if (c =? 10)%N then k st else None
      | _ => None
      end
  end.

Definition match_at (r : regex) (prev : option char) (rest : str)
           (pos : nat) : option mstate :=
  rmatch r (MState prev rest pos None) Some.

(** A match object: [start()], [end()] and the span of group 1. *)
Record rmatch_obj := MatchObj {
  mo_start : nat;
  mo_end : nat;
  mo_grp : option (nat * nat)
}.

(** [re.search]: the leftmost position with a match. *)
Fixpoint search_from (r : regex) (prev : option char) (rest : str)
         (pos : nat) {struct rest} : option rmatch_obj :=
  match match_at r prev rest pos with
  | Some st => Some (MatchObj pos (m_pos st) (m_grp st))
  | None =>
      match rest with
      | [] => None
      | c :: t => search_from r (Some c) t (S pos)
      end
  end.

Definition search (r : regex) (s : str) : option rmatch_obj :=
  search_from r None s 0.

(** [m.group(1)] on the subject [s]. *)
Definition group1 (m : rmatch_obj) (s : str) : str :=
  match mo_grp m with
  | Some (a, b) => take (b - a) (drop a s)
  | None => []
  end.

(** [re.sub(r, repl, s)] for a replacement without back-references:
    non-overlapping matches from the left; [skip] counts the
    characters still covered by the last match. *)
Fixpoint sub_from (r : regex) (repl : str) (prev : option char)
         (rest : str) (pos skip : nat) {struct rest} : str :=
  match skip with
  | S skip' =>
      match rest with
      | [] => []
      | c :: t => sub_from r repl (Some c) t (S pos) skip'
      end
  | O =>
      match match_at r prev rest pos with
      | Some st =>
          repl ++
          match rest with
          | [] => []
          | c :: t =>
              match m_pos st - pos with
              | O => c :: sub_from r repl (Some c) t (S pos) 0
              | S len => sub_from r repl (Some c) t (S pos) len
              end
          end
      | None =>
          match rest with
          | [] => []
          | c :: t => c :: sub_from r repl (Some c) t (S pos) 0
          end
      end
  end.

Definition sub (r : regex) (repl s : str) : str :=
  sub_from r repl None s 0 0.
End Matcher.

End Re.

(* ===================================================================== *)
(** ** cache_manager.py: class CacheManager *)
(* ===================================================================== *)

(** Keys of the cache document and of its entries. *)
Definition k_timestamp : str := Eval cbv in ustr "timestamp".
Definition k_reverse_phone : str := Eval cbv in ustr "reverse_phone".
Definition k_reverse_address : str := Eval cbv in ustr "reverse_address".
Definition k_ai_analysis : str := Eval cbv in ustr "ai_analysis".

(** [self.cache_data]: the document [{cache_version, last_updated,
    lookups}]; an entry of [lookups] is a dict. *)
Record CacheData := mkCacheData {
  cache_version : value;
  last_updated : str;
  lookups : gmap str (list (str * value))
}.

(** A [CacheManager] object together with what its file holds
    ([None]: no file under the canonical name). *)
Record CacheManager := mkCacheManager {
  cache_data : CacheData;
  cache_file : option CacheData;
  cache_hits : nat;
  cache_misses : nat;
  api_calls_saved : nat
}.

(** How the file operations of one [save_cache] call end: all succeed;
    one fails while the temporary file is written or the old file is
    removed (the canonical file stays as it was); or the old file is
    removed and the rename fails. *)
Inductive io_outcome := IoOk | IoFailKeep | IoFailLost.

Definition set_lookups (l : gmap str (list (str * value)))
           (self : CacheManager) : CacheManager :=
  mkCacheManager
    (mkCacheData (cache_version (cache_data self))
                 (last_updated (cache_data self)) l)
    (cache_file self) (cache_hits self) (cache_misses self)
    (api_calls_saved self).

Section Cache.
Variable R : PyRuntime.

(** The bracket set [[^\d+]]. *)
Definition not_digit_or_plus (c : char) : bool :=
  negb (isdecimal R c || (c =? ch "+"%char)%N).

(** [CacheManager.normalize_phone]. *)
Definition normalize_phone (phone : str) : str :=
  if negb (truthy (VStr phone)) then []
  else
    let phone_clean := Re.sub R false (Re.Cls not_digit_or_plus) [] phone in
    if negb (startswith (ustr "+") phone_clean) then
      if startswith (ustr "1") phone_clean && (length phone_clean =? 11)
      then ustr "+" ++ phone_clean
      else if length phone_clean =? 10 then ustr "+1" ++ phone_clean
      else if length phone_clean =? 11 then ustr "+" ++ phone_clean
      else phone_clean
    else phone_clean.

(** [CacheManager.save_cache], [now] being [_get_timestamp()]. *)
Definition save_cache (io : io_outcome) (now : str)
           (self : CacheManager) : bool * CacheManager :=
  let data := mkCacheData (cache_version (cache_data self)) now
                          (lookups (cache_data self)) in
  let file := match io with
              | IoOk => Some data
              | IoFailKeep => cache_file self
              | IoFailLost => None
              end in
  (match io with IoOk => true | _ => false end,
   mkCacheManager data file (cache_hits self) (cache_misses self)
                  (api_calls_saved self)).

(** [CacheManager.get_cached_lookup]. *)
Definition get_cached_lookup (phone : str) (self : CacheManager)
  : option (value * value * value) * CacheManager :=
  let normalized_phone := normalize_phone phone in
  if negb (truthy (VStr normalized_phone)) then (None, self)
  else
    match lookups (cache_data self) !! normalized_phone with
    | Some entry =>
        (Some (get_or k_reverse_phone (VDict []) entry,
               get_or k_reverse_address (VDict []) entry,
               get_or k_ai_analysis (VDict []) entry),
         mkCacheManager (cache_data self) (cache_file self)
                        (cache_hits self + 1) (cache_misses self)
                        (api_calls_saved self + 2))
    | None =>
        (None,
         mkCacheManager (cache_data self) (cache_file self)
                        (cache_hits self) (cache_misses self + 1)
                        (api_calls_saved self))
    end.

(** [CacheManager.store_lookup]; [ai_analysis] is [VNone] when the
    caller leaves it out; [now] stamps the entry, [now'] the save. *)
Definition store_lookup (io : io_outcome) (now now' : str)
           (phone : str) (reverse_phone_response reverse_address_response
                          ai_analysis : value)
           (self : CacheManager) : bool * CacheManager :=
  let normalized_phone := normalize_phone phone in
  if negb (truthy (VStr normalized_phone)) then (false, self)
  else if negb (truthy reverse_phone_response)
          && negb (truthy reverse_address_response) then (false, self)
  else
    let cache_entry :=
      [(k_timestamp, VStr now);
       (k_reverse_phone, reverse_phone_response);
       (k_reverse_address, reverse_address_response)]
      ++ (if truthy ai_analysis then [(k_ai_analysis, ai_analysis)] else [])
    in
    save_cache io now'
      (set_lookups (<[normalized_phone := cache_entry]>
                      (lookups (cache_data self))) self).
End Cache.

(* ===================================================================== *)
(** ** lead_processor_v2.py: LeadProcessor.parse_address *)
(* ===================================================================== *)

Record ParsedAddress := mkParsed {
  street : str;
  city : str;
  state : str;
  zip : str
}.

(** Negative slices of a list: [l[:-n]], [l[-n:]] and [l[-1]]. *)
Definition but_last_n {A} (n : nat) (l : list A) : list A :=
  take (length l - n) l.
Definition last_n {A} (n : nat) (l : list A) : list A :=
  drop (length l - n) l.
Definition last_str (l : list str) : str := default [] (last l).

Definition state_names : list (str * str) := Eval cbv in
  map (fun p : string * string => (ustr p.1, ustr p.2))
    [("alabama", "AL"); ("alaska", "AK"); ("arizona", "AZ");
     ("arkansas", "AR"); ("california", "CA"); ("colorado", "CO");
     ("connecticut", "CT"); ("delaware", "DE"); ("florida", "FL");
     ("georgia", "GA"); ("hawaii", "HI"); ("idaho", "ID");
     ("illinois", "IL"); ("indiana", "IN"); ("iowa", "IA");
     ("kansas", "KS"); ("kentucky", "KY"); ("louisiana", "LA");
     ("maine", "ME"); ("maryland", "MD"); ("massachusetts", "MA");
     ("michigan", "MI"); ("minnesota", "MN"); ("mississippi", "MS");
     ("missouri", "MO"); ("montana", "MT"); ("nebraska", "NE");
     ("nevada", "NV"); ("new hampshire", "NH"); ("new jersey", "NJ");
     ("new mexico", "NM"); ("new york", "NY"); ("north carolina", "NC");
     ("north dakota", "ND"); ("ohio", "OH"); ("oklahoma", "OK");
     ("oregon", "OR"); ("pennsylvania", "PA"); ("rhode island", "RI");
     ("south carolina", "SC"); ("south dakota", "SD"); ("tennessee", "TN");
     ("texas", "TX"); ("utah", "UT"); ("vermont", "VT"); ("virginia", "VA");
     ("washington", "WA"); ("west virginia", "WV"); ("wisconsin", "WI");
     ("wyoming", "WY")]%string.

Definition street_suffixes : list str := Eval cbv in
  map ustr
    ["street"; "st"; "avenue"; "ave"; "road"; "rd"; "drive"; "dr";
     "lane"; "ln"; "court"; "ct"; "circle"; "cir"; "boulevard"; "blvd";
     "way"; "place"; "pl"; "parkway"; "pkwy"; "trail"; "terrace"; "ter";
     "highway"; "hwy"; "freeway"; "expressway"; "loop"; "path"; "pike";
     "row"; "run"; "square"; "sq"; "alley"; "walk"; "crossing"]%string.

Definition secondary_designators : list str := Eval cbv in
  map ustr
    ["apartment"; "apt"; "suite"; "ste"; "unit"; "building"; "bldg";
     "floor"; "fl"; "room"; "rm"; "#"; "number"; "no"]%string.

Section AddressParser.
Variable R : PyRuntime.
Import Re.

Definition cats (rs : list regex) : regex :=
  foldr Cat (Rep 0 (Lit 0%N)) rs.

Definition ws : regex := Cls (isspace R).        (* \s *)
Definition dgt : regex := Cls (isdecimal R).     (* \d *)

(** [\s*,?\s*(USA|US|United States|U\.S\.A\.|U\.S\.)$] *)
Definition country_pattern : regex :=
  cats [Star ws; Opt (Lit (ch ","%char)); Star ws;
        Group (alts (lits (ustr "USA"))
                    [lits (ustr "US"); lits (ustr "United States");
                     lits (ustr "U.S.A."); lits (ustr "U.S.")]);
        Eos].

(** [\s*,\s*] *)
Definition comma_pattern : regex :=
  cats [Star ws; Lit (ch ","%char); Star ws].

(** [\b(\d{5}(?:-\d{4})?)\b] *)
Definition zip_pattern : regex :=
  cats [WordB;
        Group (Cat (Rep 5 dgt)
                   (Opt (NonCap (Cat (Lit (ch "-"%char)) (Rep 4 dgt)))));
        WordB].

(** [\b([A-Z]{2})\s*$] *)
Definition state_pattern : regex :=
  cats [WordB; Group (Rep 2 (Cls ascii_isupper)); Star ws; Eos].

(** [r'\b' + re.escape(state_name) + r'\b\s*$'] *)
Definition state_name_pattern (state_name : str) : regex :=
  cats [WordB; lits state_name; WordB; Star ws; Eos].

(** The loop over [state_names.items()]: the first name that matches
    gives [(state_code, before_state)]. *)
Fixpoint find_state_name (names : list (str * str)) (before_zip : str)
  : option (str * str) :=
  match names with
  | [] => None
  | (state_name, code) :: names' =>
      match search R true (state_name_pattern state_name) before_zip with
      | Some m =>
          Some (code,
                rstrip_by (one_of (ustr ","))
                          (strip R (take (mo_start m) before_zip)))
      | None => find_state_name names' before_zip
      end
  end.

(** The loop looking for a street suffix, from index [i] on:
    [street_end_idx] at the first part that is one. *)
Fixpoint find_street_end (parts : list str) (i len : nat) : option nat :=
  match parts with
  | [] => None
  | part :: rest =>
      if str_in (rstrip_by (one_of (ustr ".")) (lower R part))
                street_suffixes then
        match rest with
        | next :: _ =>
            if str_in (rstrip_by (one_of (ustr ".#")) (lower R next))
                      secondary_designators then
              if i + 2 <? len then Some (i + 3) else Some (i + 2)
            else Some (i + 1)
        | [] => Some (i + 1)
        end
      else find_street_end rest (S i) len
  end.

(** Street and city of a comma-free [before_state] of more than two
    words. *)
Definition split_words (parts : list str) : str * str :=
  let sp := ustr " " in
  let by_position (n : nat) :=
    (join sp (but_last_n n parts), join sp (last_n n parts)) in
  let street_end_idx := find_street_end parts 0 (length parts) in
  (* [None] and 0 are both falsy *)
  let idx := default 0 street_end_idx in
  if negb (idx =? 0) && (idx <? length parts)
  then (join sp (take idx parts), join sp (drop idx parts))
  else if negb (idx =? 0) then (join sp parts, [])
  else if isdigit R (remove_char (ch "-"%char)
                       (remove_char (ch "#"%char) (default [] (head parts))))
  then
    if 5 <=? length parts then by_position 2
    else if 4 <=? length parts then by_position 2
    else (join sp (but_last_n 1 parts), last_str parts)
  else
    if 4 <=? length parts then by_position 2
    else (join sp (but_last_n 1 parts), last_str parts).

(** [LeadProcessor.parse_address] on a string ([pd.isna] of a string
    is false). *)
Definition parse_address (address_str : str) : ParsedAddress :=
  if negb (truthy (VStr address_str)) then mkParsed [] [] [] []
  else
    let address_str := strip R address_str in
    let address_str := sub R true country_pattern [] address_str in
    let address_str := sub R false comma_pattern (ustr ", ") address_str in
    match search R false zip_pattern address_str with
    | None => mkParsed address_str [] [] []
    | Some zip_match =>
        let zip_code := group1 zip_match address_str in
        let before_zip :=
          rstrip_by (one_of (ustr ","))
                    (strip R (take (mo_start zip_match) address_str)) in
        let found :=
          match search R false state_pattern before_zip with
          | Some state_match =>
              Some (group1 state_match before_zip,
                    rstrip_by (one_of (ustr ","))
                      (strip R (take (mo_start state_match) before_zip)))
          | None => find_state_name state_names before_zip
          end in
        match found with
        | None => mkParsed before_zip [] [] zip_code
        | Some (state_code, before_state) =>
            let before_state :=
              strip R (lstrip_by (one_of (ustr ","))
                         (rstrip_by (one_of (ustr ","))
                            (strip R before_state))) in
            if existsb (N.eqb (ch ","%char)) before_state then
              let parts := map (strip R)
                               (split_on (ch ","%char) before_state) in
              let '(street, city) :=
                if 2 <=? length parts
                then (join (ustr ", ") (but_last_n 1 parts), last_str parts)
                else (default [] (head parts), []) in
              mkParsed (strip R street) (strip R city) state_code zip_code
            else
              let parts := split_ws R before_state in
              if length parts <=? 2
              then mkParsed before_state [] state_code zip_code
              else
                let '(street, city) := split_words parts in
                mkParsed (strip R street) (strip R city) state_code zip_code
        end
    end.
End AddressParser.

(* ===================================================================== *)
(** ** lead_processor_v2.py: clean_phone, extract_age, format_address *)
(* ===================================================================== *)

Definition k_name : str := Eval cbv in ustr "name".
Definition k_firstname : str := Eval cbv in ustr "firstname".
Definition k_lastname : str := Eval cbv in ustr "lastname".
Definition k_age : str := Eval cbv in ustr "age".
Definition k_age_range : str := Eval cbv in ustr "age_range".
Definition k_alternate_phones : str := Eval cbv in ustr "alternate_phones".
Definition k_phones : str := Eval cbv in ustr "phones".
Definition k_phone_numbers : str := Eval cbv in ustr "phone_numbers".
Definition k_phone : str := Eval cbv in ustr "phone".
Definition k_phoneNumber : str := Eval cbv in ustr "phoneNumber".
Definition k_phone_number : str := Eval cbv in ustr "phone_number".
Definition k_current_addresses : str := Eval cbv in ustr "current_addresses".
Definition k_historical_addresses : str :=
  Eval cbv in ustr "historical_addresses".
Definition k_street_line_1 : str := Eval cbv in ustr "street_line_1".
Definition k_city : str := Eval cbv in ustr "city".
Definition k_state_code : str := Eval cbv in ustr "state_code".
Definition k_postal_code : str := Eval cbv in ustr "postal_code".
Definition k_current_residents : str := Eval cbv in ustr "current_residents".
Definition k_address : str := Eval cbv in ustr "address".

(** The reserved name of the sentinel result. *)
Definition NO_RESULTS_FOUND : str := Eval cbv in ustr "NO RESULTS FOUND".

(** [sep.join(parts)] on objects: a part that is not a [str] raises
    [TypeError]. *)
Fixpoint as_strs (parts : list value) : res (list str) :=
  match parts with
  | [] => Ok []
  | VStr s :: parts' => cons s <$> as_strs parts'
  | _ :: _ => Raise
  end.

Section LeadProcessor.
Variable R : PyRuntime.

(** [LeadProcessor.clean_phone]. *)
Definition clean_phone (phone : value) : str :=
  if pd_isna phone then []
  else
    let phone_str := strip R (to_str R phone) in
    let phone_clean :=
      Re.sub R false (Re.Cls (not_digit_or_plus R)) [] phone_str in
    if negb (startswith (ustr "+") phone_clean) then
      if startswith (ustr "1") phone_clean && (length phone_clean =? 11)
      then ustr "+" ++ phone_clean
      else if length phone_clean =? 10 then ustr "+1" ++ phone_clean
      else if (length phone_clean =? 11)
              && negb (startswith (ustr "1") phone_clean)
      then ustr "+" ++ phone_clean
      else phone_clean
    else phone_clean.

(** [LeadProcessor.extract_age]. *)
Definition extract_age (person_data : dict) : value :=
  match dict_get k_age person_data with
  | Some a =>
      if truthy a then VStr (to_str R a)
      else if truthy (get k_age_range person_data)
      then get k_age_range person_data else VStr []
  | None =>
      if truthy (get k_age_range person_data)
      then get k_age_range person_data else VStr []
  end.

(** [LeadProcessor.format_address]. *)
Definition format_address (address_data : dict) : res str :=
  if negb (truthy (VDict address_data)) then Ok []
  else
    let part (k : str) : list value :=
      if truthy (get k address_data) then [get k address_data] else [] in
    join (ustr ", ") <$>
      as_strs (part k_street_line_1 ++ part k_city ++ part k_state_code
               ++ part k_postal_code).
End LeadProcessor.

(* ===================================================================== *)
(** ** dialer_gui.py: DialerGUI.extract_people_from_data *)
(* ===================================================================== *)

(** The dict [person_info]: keys [name], [age], [phones], [addresses]. *)
Record PersonInfo := mkPerson {
  pi_name : value;
  pi_age : value;
  pi_phones : list value;
  pi_addresses : list str
}.

(** [if x not in l: l.append(x)]. *)
Definition append_new (l : list value) (x : value) : list value :=
  if py_in x l then l else l ++ [x].
Definition append_new_str (l : list str) (x : str) : list str :=
  if str_in x l then l else l ++ [x].

(** [obj.get(k) and isinstance(obj[k], list)]: the items to loop over. *)
Definition list_field (k : str) (obj : dict) : list value :=
  match get k obj with
  | VList l => l
  | _ => []
  end.

(** Body of the loop over [obj['alternate_phones']]. *)
Definition alternate_phones_step (phones : list value) (phone_obj : value)
  : list value :=
  match phone_obj with
  | VDict d =>
      if truthy (get k_phoneNumber d)
      then append_new phones (get k_phoneNumber d) else phones
  | _ => phones
  end.

(** Body of the loop over [obj['phones']]. *)
Definition phones_step (phones : list value) (phone_obj : value)
  : list value :=
  let phone_num :=
    match phone_obj with
    | VDict d =>
        py_or (get k_phone_number d)
              (py_or (get k_phoneNumber d) (get k_phone d))
    | VStr s => VStr s
    | _ => VNone
    end in
  if truthy phone_num then append_new phones phone_num else phones.

(** Body of the loop over [obj['phone_numbers']]. *)
Definition phone_numbers_step (phones : list value) (phone_obj : value)
  : list value :=
  let phone_num :=
    match phone_obj with
    | VDict d => py_or (get k_phone_number d) (get k_phoneNumber d)
    | VStr s => VStr s
    | _ => VNone
    end in
  if truthy phone_num then append_new phones phone_num else phones.

(** The four phone sources of a person node, in the order of the code. *)
Definition person_phones (obj : dict) : list value :=
  let phones := [] in
  let phones :=
    foldl alternate_phones_step phones (list_field k_alternate_phones obj) in
  let phones := foldl phones_step phones (list_field k_phones obj) in
  let phones :=
    foldl phone_numbers_step phones (list_field k_phone_numbers obj) in
  if truthy (get k_phone obj) then append_new phones (get k_phone obj)
  else phones.

Section Extractor.
Variable R : PyRuntime.

(** The loops over [current_addresses] and [historical_addresses]. *)
Fixpoint addresses_loop (addresses : list str) (items : list value)
  : res (list str) :=
  match items with
  | [] => Ok addresses
  | VDict addr :: items' =>
      formatted_addr ← format_address addr;
      addresses_loop
        (if truthy (VStr formatted_addr)
         then append_new_str addresses formatted_addr else addresses)
        items'
  | _ :: items' => addresses_loop addresses items'
  end.

(** [f"{obj.get('firstname', '')} {obj.get('lastname', '')}".strip()] *)
Definition full_name (obj : dict) : str :=
  strip R (to_str R (get_or k_firstname (VStr []) obj)
           ++ ustr " "
           ++ to_str R (get_or k_lastname (VStr []) obj)).

Definition person_name (obj : dict) : value :=
  py_or (get k_name obj) (VStr (full_name obj)).

(** What [traverse] appends to [people] at the node [obj] itself. *)
Definition person_at (obj : dict) : res (list PersonInfo) :=
  if truthy (get k_name obj) || truthy (get k_firstname obj)
     || truthy (get k_lastname obj) then
    if truthy (person_name obj) then
      addresses ← addresses_loop [] (list_field k_current_addresses obj);
      addresses ←
        addresses_loop addresses (list_field k_historical_addresses obj);
      Ok [mkPerson (person_name obj) (extract_age R obj)
                   (person_phones obj) addresses]
    else Ok []
  else Ok [].

(** The loops at the end of [traverse] and at the top level, over a
    function [rec] for the recursive call: a dict value is walked, the
    items of a list value are walked when they are dicts, anything else
    is skipped. *)
Section Walk.
Variable rec : value -> res (list PersonInfo).

Definition walk_item (item : value) : res (list PersonInfo) :=
  match item with
  | VDict _ => rec item
  | _ => Ok []
  end.

Fixpoint walk_items (l : list value) : res (list PersonInfo) :=
  match l with
  | [] => Ok []
  | item :: l' =>
      a ← walk_item item;
      b ← walk_items l';
      Ok (a ++ b)
  end.

Definition walk_value (v : value) : res (list PersonInfo) :=
  match v with
  | VDict _ => rec v
  | VList l => walk_items l
  | _ => Ok []
  end.

Fixpoint walk_fields (kvs : list (str * value)) : res (list PersonInfo) :=
  match kvs with
  | [] => Ok []
  | (_, v) :: kvs' =>
      first ← walk_value v;
      rest ← walk_fields kvs';
      Ok (first ++ rest)
  end.
End Walk.

(** The inner function [traverse]; the result is what it appends to
    [people] (the [path] argument is only built, never read). *)
Fixpoint traverse (obj : value) : res (list PersonInfo) :=
  match obj with
  | VDict d =>
      if negb (truthy obj) then Ok []
      else
        here ← person_at d;
        below ← walk_fields traverse d;
        Ok (here ++ below)
  | _ => Ok []
  end.

(** [DialerGUI.extract_people_from_data]. *)
Definition extract_people_from_data (data : value) : res (list PersonInfo) :=
  match data with
  | VDict _ => traverse data
  | VList l => walk_items traverse l
  | _ => Ok []
  end.
End Extractor.

(* ===================================================================== *)
(** ** dialer_gui.py: process_lookup_data and the two accumulators *)
(* ===================================================================== *)

(** One row of [self.current_results]. *)
Record LeadResult := mkResult {
  original_address : value;
  original_phone : str;
  blank : str;
  age : value;
  original_name : value;
  new_phones : list value;
  new_addresses : list str;
  new_name : value;
  status : str;
  notes : str;
  address_lookup_failed : bool
}.

(** [r.get('new_name') == 'NO RESULTS FOUND']. *)
Definition is_sentinel (r : LeadResult) : bool :=
  py_eq (new_name r) (VStr NO_RESULTS_FOUND).

(** [not address_data or 'current_residents' not in address_data or
    not address_data['current_residents']]; on a truthy object that is
    not a dict, [in] or the subscript raises [TypeError]. *)
Definition address_missed (address_data : value) : res bool :=
  if negb (truthy address_data) then Ok true
  else
    match address_data with
    | VDict d =>
        match dict_get k_current_residents d with
        | None => Ok true
        | Some residents => Ok (negb (truthy residents))
        end
    | VList l => if py_in (VStr k_current_residents) l then Raise else Ok true
    | VStr s => if contains k_current_residents s then Raise else Ok true
    | _ => Raise
    end.

(** The body of the loops that fill [found_people]: merge into the first
    entry of the same name, or append. *)
Fixpoint merge_found (found_people : list PersonInfo)
         (person_info : PersonInfo) : list PersonInfo :=
  match found_people with
  | [] => [person_info]
  | p :: rest =>
      if py_eq (pi_name p) (pi_name person_info)
      then mkPerson (pi_name p) (pi_age p)
                    (foldl append_new (pi_phones p) (pi_phones person_info))
                    (foldl append_new_str (pi_addresses p)
                           (pi_addresses person_info))
           :: rest
      else p :: merge_found rest person_info
  end.

Section Accumulator.
Variable R : PyRuntime.

(** [extract_people_from_data(data) if data else []]. *)
Definition people_of (data : value) : res (list PersonInfo) :=
  if truthy data then extract_people_from_data R data else Ok [].

Definition sentinel_result (person : dict) (failed : bool) : LeadResult :=
  mkResult (get_or k_address (VStr []) person)
           (clean_phone R (get_or k_phone (VStr []) person))
           [] (VStr []) (get_or k_name (VStr []) person)
           [] [] (VStr NO_RESULTS_FOUND) [] [] failed.

Definition result_of (person : dict) (failed : bool)
           (person_info : PersonInfo) : LeadResult :=
  mkResult (get_or k_address (VStr []) person)
           (clean_phone R (get_or k_phone (VStr []) person))
           [] (pi_age person_info) (get_or k_name (VStr []) person)
           (pi_phones person_info) (pi_addresses person_info)
           (pi_name person_info) [] [] failed.

(** [DialerGUI.process_lookup_data]. *)
Definition process_lookup_data (person : dict)
           (phone_data address_data : value) : res (list LeadResult) :=
  address_lookup_failed ← address_missed address_data;
  phone_people ← people_of phone_data;
  let found_people := foldl merge_found [] phone_people in
  address_people ← people_of address_data;
  let found_people := foldl merge_found found_people address_people in
  Ok (match found_people with
      | [] => [sentinel_result person address_lookup_failed]
      | _ :: _ => map (result_of person address_lookup_failed) found_people
      end).

(** The body of the loop of an accumulator over the incoming people:
    merge into the first result of the same name, or append a new one.
    The two accumulators differ in one line: the address one also
    clears [address_lookup_failed] of the result it merges into. *)
Fixpoint merge_result (from_address : bool) (original_person : dict)
         (current_results : list LeadResult) (person_info : PersonInfo)
  : list LeadResult :=
  match current_results with
  | [] => [result_of original_person false person_info]
  | r :: rest =>
      if py_eq (new_name r) (pi_name person_info)
      then mkResult (original_address r) (original_phone r) (blank r)
                    (if truthy (pi_age person_info) && negb (truthy (age r))
                     then pi_age person_info else age r)
                    (original_name r)
                    (foldl append_new (new_phones r) (pi_phones person_info))
                    (foldl append_new_str (new_addresses r)
                           (pi_addresses person_info))
                    (new_name r) (status r) (notes r)
                    (if from_address then false
                     else address_lookup_failed r)
           :: rest
      else r :: merge_result from_address original_person rest person_info
  end.

(** [not self.current_results or
     self.current_results[0].get('new_name') == 'NO RESULTS FOUND']. *)
Definition starts_fresh (current_results : list LeadResult) : bool :=
  match current_results with
  | [] => true
  | r :: _ => is_sentinel r
  end.

(** [DialerGUI.accumulate_phone_results]: the new [self.current_results]
    (saving, display and the AI call that follow do not change it). *)
Definition accumulate_phone_results (phone_data : value)
           (original_person : dict) (current_results : list LeadResult)
  : res (list LeadResult) :=
  if starts_fresh current_results
  then process_lookup_data original_person phone_data VNone
  else
    phone_people ← people_of phone_data;
    Ok (foldl (merge_result false original_person) current_results
              phone_people).

(** [DialerGUI.accumulate_address_results]. *)
Definition accumulate_address_results (address_data : value)
           (original_person : dict) (current_results : list LeadResult)
  : res (list LeadResult) :=
  if starts_fresh current_results
  then process_lookup_data original_person VNone address_data
  else
    address_people ← people_of address_data;
    Ok (foldl (merge_result true original_person) current_results
              address_people).
End Accumulator.

(** A runtime whose tables are empty beyond ASCII; every runtime agrees
    with it on ASCII text.  It serves to run the definitions on concrete
    inputs. *)
Definition py_ascii : PyRuntime :=
  {| uni_isdecimal := fun _ => false;
     uni_isdigit := fun _ => false;
     uni_isspace := fun _ => false;
     uni_isalnum := fun _ => false;
     uni_lower := fun s => s;
     uni_caseless := fun c d => (c =? d)%N;
     py_str := fun _ => ustr "<object>" |}.

(** An empty cache with no file yet. *)
Definition empty_cache : CacheManager :=
  mkCacheManager (mkCacheData (VStr (ustr "1.0")) [] ∅) None 0 0 0.

(** The step after the cleaning, as a function of the cleaned string. *)
Definition with_prefix (phone_clean : str) : str :=
  if negb (startswith (ustr "+") phone_clean) then
    if startswith (ustr "1") phone_clean && (length phone_clean =? 11)
    then ustr "+" ++ phone_clean
    else if length phone_clean =? 10 then ustr "+1" ++ phone_clean
    else if length phone_clean =? 11 then ustr "+" ++ phone_clean
    else phone_clean
  else phone_clean.

(** The dict nodes that the walk of [extract_people_from_data] visits in
    a document: a non-empty dict, what is visited in the values of its
    items, and what is visited in the dicts that are items of a list. *)
Inductive visited : value -> list (str * value) -> Prop :=
| visited_here d :
    truthy (VDict d) = true -> visited (VDict d) d
| visited_field d k v obj :
    truthy (VDict d) = true -> (k, v) ∈ d -> visited v obj ->
    visited (VDict d) obj
| visited_item l d obj :
    VDict d ∈ l -> visited (VDict d) obj -> visited (VList l) obj.

(** A document none of whose extracted people bears the reserved name. *)
Definition no_reserved_name (R : PyRuntime) (data : value) : Prop :=
  forall people,
    people_of R data = Ok people ->
    Forall (fun p => py_eq (pi_name p) (VStr NO_RESULTS_FOUND) = false) people.

(** The sentinel, if present, is the sole element. *)
Definition sentinel_alone (l : list LeadResult) : Prop :=
  forall r, r ∈ l -> is_sentinel r = true -> l = [r].

(** The values [self.current_results] takes: the empty list of
    [__init__], what [process_lookup_data] returns, and what the two
    accumulators make of a reachable list.  [admitted] restricts the
    documents that are fed in. *)
Inductive reachable (R : PyRuntime) (admitted : value -> Prop)
  : list LeadResult -> Prop :=
| reach_init : reachable R admitted []
| reach_process person phone_data address_data rs :
    admitted phone_data -> admitted address_data ->
    process_lookup_data R person phone_data address_data = Ok rs ->
    reachable R admitted rs
| reach_phone phone_data person cur rs :
    admitted phone_data -> reachable R admitted cur ->
    accumulate_phone_results R phone_data person cur = Ok rs ->
    reachable R admitted rs
| reach_address address_data person cur rs :
    admitted address_data -> reachable R admitted cur ->
    accumulate_address_results R address_data person cur = Ok rs ->
    reachable R admitted rs.

(** [next((r for r in results if r['new_name'] == name), None)]. *)
Definition existing_result (name : value) (results : list LeadResult)
  : option LeadResult :=
  List.find (fun r => py_eq (new_name r) name) results.

(** Sample inputs: a contact row and lookup documents. *)
Definition sample_contact : list (str * value) :=
  [(k_name, VStr (ustr "Pat Doe"));
   (k_phone, VStr (ustr "(415) 555-1234"));
   (k_address, VStr (ustr "1234 Main Street, Austin, TX 78701"))].

(** Two owners, Alice and Bob. *)
Definition sample_phone_data : value :=
  VDict [(ustr "owners",
          VList [VDict [(k_name, VStr (ustr "Alice"))];
                 VDict [(k_name, VStr (ustr "Bob"))]])].

(** One resident, Alice, with a phone. *)
Definition sample_address_data : value :=
  VDict [(k_current_residents,
          VList [VDict [(k_name, VStr (ustr "Alice"));
                        (k_phones, VList [VStr (ustr "+15125550100")])]])].

(** Two owners, the first of whom is called like the sentinel. *)
Definition reserved_name_data : value :=
  VDict [(ustr "owners",
          VList [VDict [(k_name, VStr NO_RESULTS_FOUND)];
                 VDict [(k_name, VStr (ustr "Bob"))]])].

(** A result row for [sample_contact]. *)
Definition sample_result (name : string) (phones : list value)
           (failed : bool) : LeadResult :=
  mkResult (VStr (ustr "1234 Main Street, Austin, TX 78701"))
           (ustr "+14155551234") [] (VStr []) (VStr (ustr "Pat Doe"))
           phones [] (VStr (ustr name)) [] [] failed.

(** The number an entry of each phone list stands for ([None] when it
    gives none), and the candidate numbers of a person node in the order
    the code meets them: alternate phones, phones, phone numbers, the
    scalar phone field. *)
Definition alternate_phone_candidate (entry : value) : value :=
  match entry with
  | VDict d => get k_phoneNumber d
  | _ => VNone
  end.

Definition phones_candidate (entry : value) : value :=
  match entry with
  | VDict d =>
      py_or (get k_phone_number d) (py_or (get k_phoneNumber d) (get k_phone d))
  | VStr s => VStr s
  | _ => VNone
  end.

Definition phone_numbers_candidate (entry : value) : value :=
  match entry with
  | VDict d => py_or (get k_phone_number d) (get k_phoneNumber d)
  | VStr s => VStr s
  | _ => VNone
  end.

Definition phone_candidates (obj : list (str * value)) : list value :=
  List.filter truthy
    (map alternate_phone_candidate (list_field k_alternate_phones obj)
     ++ map phones_candidate (list_field k_phones obj)
     ++ map phone_numbers_candidate (list_field k_phone_numbers obj)
     ++ [get k_phone obj]).

(* ===================================================================== *)
(** ** cache_manager.py: the other methods of CacheManager *)
(* ===================================================================== *)

(** [d[k] = v] on a dict: the binding is replaced where it stands, or
    added at the end. *)
Fixpoint dict_set (k : str) (v : value) (d : list (str * value))
  : list (str * value) :=
  match d with
  | [] => [(k, v)]
  | (k', v') :: d' =>
      if str_eqb k k' then (k', v) :: d' else (k', v') :: dict_set k v d'
  end.

(** What opening and decoding the cache file gives [load_cache]: no
    file; a file that is not JSON ([JSONDecodeError]); a JSON value that
    is not a dict with a [lookups] key; [open] or [json.load] raising
    any other exception (the file cannot be opened or read), which the
    generic handler catches before [self.cache_data] is assigned; or a
    cache document, that is a dict whose [lookups] value is a dict of
    entry dicts, the documents [CacheData] holds.  A decoded dict whose
    [lookups] value is anything else is installed by the code as it is
    ([load_cache] then returns [False] if [len] raises on it); such a
    file has no outcome here and no statement below is about it. *)
Inductive read_outcome :=
| ReadMissing
| ReadUndecodable
| ReadWrongShape
| ReadFails
| ReadDocument (data : CacheData).

(** Reading the file a manager has written. *)
Definition read_back (self : CacheManager) : read_outcome :=
  match cache_file self with
  | None => ReadMissing
  | Some data => ReadDocument data
  end.

Section CacheMore.
Variable R : PyRuntime.

(** [CacheManager.update_ai_analysis]; [now] stamps the entry, [now']
    the save. *)
Definition update_ai_analysis (io : io_outcome) (now now' : str)
           (phone : str) (ai_analysis : value) (self : CacheManager)
  : bool * CacheManager :=
  let normalized_phone := normalize_phone R phone in
  if negb (truthy (VStr normalized_phone)) then (false, self)
  else
    match lookups (cache_data self) !! normalized_phone with
    | Some entry =>
        let entry := dict_set k_ai_analysis ai_analysis entry in
        let entry := dict_set k_timestamp (VStr now) entry in
        save_cache io now'
          (set_lookups (<[normalized_phone := entry]>
                          (lookups (cache_data self))) self)
    | None => (false, self)
    end.

(** [CacheManager.clear_cache]: [(entry_count, success)] and the
    manager. *)
Definition clear_cache (io : io_outcome) (now now' : str)
           (self : CacheManager) : (nat * bool) * CacheManager :=
  let entry_count := size (lookups (cache_data self)) in
  let cleared :=
    mkCacheManager
      (mkCacheData (cache_version (cache_data self)) now ∅)
      (cache_file self) (cache_hits self) (cache_misses self)
      (api_calls_saved self) in
  let saved := save_cache io now' cleared in
  ((entry_count, saved.1), saved.2).

(** [CacheManager.load_cache], on the outcomes of [read_outcome]. *)
Definition load_cache (rd : read_outcome) (io : io_outcome) (now : str)
           (self : CacheManager) : bool * CacheManager :=
  match rd with
  | ReadMissing | ReadUndecodable | ReadWrongShape =>
      (false, (save_cache io now self).2)
  | ReadFails => (false, self)
  | ReadDocument loaded_data =>
      (true,
       mkCacheManager loaded_data (cache_file self) (cache_hits self)
                      (cache_misses self) (api_calls_saved self))
  end.
End CacheMore.

(** [CacheManager.__init__] on a file that holds [file] and reads as
    [rd]: a fresh empty document stamped [now], then [load_cache], then
    the counters at zero. *)
Definition new_cache_manager (file : option CacheData) (rd : read_outcome)
           (io : io_outcome) (now now' : str) : CacheManager :=
  let fresh :=
    mkCacheManager (mkCacheData (VStr (ustr "1.0")) now ∅) file 0 0 0 in
  let loaded := (load_cache rd io now' fresh).2 in
  mkCacheManager (cache_data loaded) (cache_file loaded) 0 0 0.





(* ===================================================================== *)
(** ** dialer_gui.py: DialerGUI.html_escape *)
(* ===================================================================== *)

(** [s.replace(c, new)] for a one-character [c]. *)
Definition replace_char (c : char) (new : str) (s : str) : str :=
  List.flat_map (fun d => if (d =? c)%N then new else [d]) s.

(** The five characters: ampersand, less-than, greater-than, double
    quote (code 34) and apostrophe (code 39). *)
Definition c_amp : char := 38%N.
Definition c_lt : char := 60%N.
Definition c_gt : char := 62%N.
Definition c_quot : char := 34%N.
Definition c_apos : char := 39%N.

(** [DialerGUI.html_escape]. *)
Definition html_escape (R : PyRuntime) (text : value) : str :=
  if negb (truthy text) then []
  else
    replace_char c_apos (ustr "&#39;")
      (replace_char c_quot (ustr "&quot;")
         (replace_char c_gt (ustr "&gt;")
            (replace_char c_lt (ustr "&lt;")
               (replace_char c_amp (ustr "&amp;") (to_str R text))))).

(** The entity that stands for a character, in one pass. *)
Definition html_entity (c : char) : str :=
  if (c =? c_amp)%N then ustr "&amp;"
  else if (c =? c_lt)%N then ustr "&lt;"
  else if (c =? c_gt)%N then ustr "&gt;"
  else if (c =? c_quot)%N then ustr "&quot;"
  else if (c =? c_apos)%N then ustr "&#39;"
  else [c].

(** No result bears the name of an earlier one (as [==] compares). *)
Fixpoint distinct_names (l : list LeadResult) : Prop :=
  match l with
  | [] => True
  | r :: rest =>
      Forall (fun r' => py_eq (new_name r) (new_name r') = false) rest
      /\ distinct_names rest
  end.

(** A list built by [if x not in l: l.append(x)]: no value equals an
    earlier one. *)
Inductive deduplicated : list value -> Prop :=
| deduplicated_nil : deduplicated []
| deduplicated_snoc l x :
    deduplicated l -> py_in x l = false -> deduplicated (l ++ [x]).

(** The lists of a result row are deduplicated. *)
Definition row_deduplicated (r : LeadResult) : Prop :=
  deduplicated (new_phones r) /\ NoDup (new_addresses r).

(** The same for the records of the extractor. *)
Definition person_deduplicated (p : PersonInfo) : Prop :=
  deduplicated (pi_phones p) /\ NoDup (pi_addresses p).

Fixpoint distinct_person_names (l : list PersonInfo) : Prop :=
  match l with
  | [] => True
  | p :: rest =>
      Forall (fun q => py_eq (pi_name p) (pi_name q) = false) rest
      /\ distinct_person_names rest
  end.

(** What a merge may do to a row: the contact fields, the name, the
    status and the notes stay; the two lists are extended at the end; an
    age that is set stays; a cleared flag stays cleared. *)
Definition grows (r r' : LeadResult) : Prop :=
  original_address r' = original_address r
  /\ original_phone r' = original_phone r
  /\ blank r' = blank r
  /\ original_name r' = original_name r
  /\ new_name r' = new_name r
  /\ status r' = status r
  /\ notes r' = notes r
  /\ new_phones r `prefix_of` new_phones r'
  /\ new_addresses r `prefix_of` new_addresses r'
  /\ (truthy (age r) = true -> age r' = age r)
  /\ (address_lookup_failed r = false -> address_lookup_failed r' = false).

(** [x] is in [l], as an element or as [in] finds it. *)
Definition listed (x : value) (l : list value) : Prop :=
  x ∈ l \/ py_in x l = true.

(** [next((p for p in found_people if p['name'] == name), None)]. *)
Definition find_person (name : value) (found_people : list PersonInfo)
  : option PersonInfo :=
  List.find (fun p => py_eq (pi_name p) name) found_people.

(** The lists [phones] and [addresses] are contained in those of the row. *)
Definition covers (phones : list value) (addresses : list str)
           (r : LeadResult) : Prop :=
  (forall x, x ∈ phones -> listed x (new_phones r))
  /\ (forall a, a ∈ addresses -> a ∈ new_addresses r).

(** ** When the extractor raises *)

Definition is_str (v : value) : bool :=
  match v with
  | VStr _ => true
  | _ => false
  end.

(** A part of an address that [format_address] can use: it is skipped
    (falsy) or it is a string. *)
Definition text_or_empty (v : value) : bool :=
  match v with
  | VStr _ => true
  | _ => negb (truthy v)
  end.

(** An address dict whose four parts are strings or falsy. *)
Definition plain_address (addr : list (str * value)) : bool :=
  forallb (fun k => text_or_empty (get k addr))
          [k_street_line_1; k_city; k_state_code; k_postal_code].

(** The node [obj] passes the two tests of [traverse] that lead to a
    record. *)
Definition emits_person (R : PyRuntime) (obj : list (str * value)) : bool :=
  (truthy (get k_name obj) || truthy (get k_firstname obj)
   || truthy (get k_lastname obj))
  && truthy (person_name R obj).

(** The address items of a node, in the order the code reads them. *)
Definition address_items (obj : list (str * value)) : list value :=
  list_field k_current_addresses obj ++ list_field k_historical_addresses obj.

(** ** The shape of the fields [parse_address] returns *)

(** Five digits, or five digits, a hyphen and four digits ([\d] as the
    runtime classifies characters). *)
Definition zip_shape (R : PyRuntime) (z : str) : bool :=
  ((length z =? 5) && forallb (isdecimal R) z)
  || ((length z =? 10) && forallb (isdecimal R) (take 5 z)
      && str_eqb (take 1 (drop 5 z)) (ustr "-")
      && forallb (isdecimal R) (drop 6 z)).

(** Two ASCII capitals. *)
Definition state_shape (s : str) : bool :=
  (length s =? 2) && forallb ascii_isupper s.

(** A pattern without a capturing group. *)
Fixpoint group_free (r : Re.regex) : bool :=
  match r with
  | Re.Group _ => false
  | Re.Cat r1 r2 | Re.Alt r1 r2 => group_free r1 && group_free r2
  | Re.Star r1 | Re.Opt r1 | Re.Rep _ r1 | Re.NonCap r1 => group_free r1
  | _ => true
  end.

(** A continuation that leaves the span of group 1 as it finds it. *)
Definition keeps_grp (k : Re.mstate -> option Re.mstate) : Prop :=
  forall st m, k st = Some m -> Re.m_grp m = Re.m_grp st.

(* ===================================================================== *)
(** ** dialer_gui.py: DialerGUI.add_to_call_history *)
(* ===================================================================== *)

Definition k_status : str := Eval cbv in ustr "status".
Definition k_notes : str := Eval cbv in ustr "notes".
Definition k_enable_call_history : str :=
  Eval cbv in ustr "enable_call_history".

(** The loop [for entry in self.call_history: if entry.get('phone') ==
    phone: existing_entry = entry; break], from index [i] on: the first
    match with its index.  An entry that is not a dict has no [get]
    ([AttributeError]). *)
Fixpoint find_entry (phone : value) (call_history : list value) (i : nat)
  : res (option (nat * dict)) :=
  match call_history with
  | [] => Ok None
  | VDict entry :: rest =>
      if py_eq (get k_phone entry) phone then Ok (Some (i, entry))
      else find_entry phone rest (S i)
  | _ :: _ => Raise
  end.

(** The entry that the [else] branch creates. *)
Definition new_entry (now : str) (phone name status notes : value) : dict :=
  [(k_timestamp, VStr now); (k_phone, phone); (k_name, name);
   (k_status, status); (k_notes, notes)].

(** The assignments of the [if existing_entry:] branch. *)
Definition update_entry (now : str) (name status notes : value)
           (existing_entry : dict) : dict :=
  let e := dict_set k_timestamp (VStr now) existing_entry in
  let e := if truthy name then dict_set k_name name e else e in
  let e := if truthy status then dict_set k_status status e else e in
  if truthy notes then dict_set k_notes notes e else e.

(** [DialerGUI.add_to_call_history]: the new [self.call_history] ([now]
    is [datetime.datetime.now().isoformat()]; [save_call_history], which
    follows, catches its own errors and changes nothing).  A history
    that is not a list cannot be iterated, or yields items without
    [get], or has no [append]. *)
Definition add_to_call_history (settings : dict) (now : str)
           (phone name status notes : value) (call_history : value)
  : res value :=
  if negb (truthy (get_or k_enable_call_history (VBool true) settings))
  then Ok call_history
  else
    match call_history with
    | VList history =>
        existing_entry ← find_entry phone history 0;
        match existing_entry with
        | Some (i, entry) =>
            if truthy (VDict entry)
            then Ok (VList (<[i := VDict (update_entry now name status notes
                                                       entry)]> history))
            else Ok (VList (history
                            ++ [VDict (new_entry now phone name status notes)]))
        | None =>
            Ok (VList (history
                       ++ [VDict (new_entry now phone name status notes)]))
        end
    | _ => Raise
    end.

(** The phone of an entry of the history. *)
Definition entry_phone (v : value) : value :=
  match v with
  | VDict e => get k_phone e
  | _ => VNone
  end.

(** No value equals a later one (as [==] compares). *)
Fixpoint distinct_values (l : list value) : Prop :=
  match l with
  | [] => True
  | x :: rest =>
      Forall (fun y => py_eq x y = false) rest /\ distinct_values rest
  end.

(** A history as the function builds it: non-empty dicts, one per
    phone. *)
Definition is_entry (v : value) : Prop :=
  exists e, v = VDict e /\ e <> [].

Definition history_ok (call_history : list value) : Prop :=
  Forall is_entry call_history
  /\ distinct_values (map entry_phone call_history).

(** A person node whose phone sources repeat a number. *)
Definition repeated_phones_node : list (str * value) :=
  [(k_name, VStr (ustr "Alice"));
   (k_alternate_phones,
    VList [VDict [(k_phoneNumber, VStr (ustr "+15125550100"))]]);
   (k_phones,
    VList [VStr (ustr "+15125550100");
           VDict [(k_phone_number, VStr (ustr "+15125550111"))]]);
   (k_phone, VStr (ustr "+15125550111"))].


(* ===================================================================== *)
(** * Properties *)
(* ===================================================================== *)

(** ** Strings and the regex fragment *)

Lemma str_eqb_eq (s t : str) : str_eqb s t = true <-> s = t.
Proof.
  revert t. induction s as [|c s IH]; intros [|d t]; simpl; try easy.
  rewrite andb_true_iff, N.eqb_eq, IH. split.
  - intros [-> ->]. reflexivity.
  - intros [= -> ->]. auto.
Qed.

Lemma str_eqb_refl (s : str) : str_eqb s s = true.
Proof. apply str_eqb_eq. reflexivity. Qed.

Lemma truthy_VStr (s : str) : truthy (VStr s) = false <-> s = [].
Proof.
  simpl. rewrite negb_false_iff, bool_decide_eq_true. reflexivity.
Qed.

(** Substituting the empty string for a one-character class is a filter. *)
Lemma sub_from_class_filter (R : PyRuntime) (ic : bool) (p : char -> bool)
      (rest : str) (prev : option char) (pos : nat) :
  Re.sub_from R ic (Re.Cls p) [] prev rest pos 0
  = List.filter (fun c => negb (p c)) rest.
Proof.
  revert prev pos. induction rest as [|c t IH]; intros prev pos.
  - reflexivity.
  - cbn -[Nat.sub]. destruct (p c); cbn -[Nat.sub].
    + replace (S pos - pos) with 1 by lia. apply IH.
    + f_equal. apply IH.
Qed.

Lemma sub_class_filter (R : PyRuntime) (ic : bool) (p : char -> bool) (s : str) :
  Re.sub R ic (Re.Cls p) [] s = List.filter (fun c => negb (p c)) s.
Proof. apply sub_from_class_filter. Qed.

Lemma filter_fixed {A} (p : A -> bool) (l : list A) :
  List.forallb p l = true -> List.filter p l = l.
Proof.
  induction l as [|x l IH]; simpl; [reflexivity|].
  rewrite andb_true_iff. intros [Hx Hl]. rewrite Hx, IH; auto.
Qed.

Lemma forallb_filter {A} (p : A -> bool) (l : list A) :
  List.forallb p (List.filter p l) = true.
Proof.
  induction l as [|x l IH]; simpl; [reflexivity|].
  destruct (p x) eqn:E; simpl; rewrite ?E; auto.
Qed.

(** ** PhoneNormalizer *)

Section PhoneFacts.
Variable R : PyRuntime.

Let keep (c : char) : bool := negb (not_digit_or_plus R c).

Lemma normalize_phone_unfold (phone : str) :
  normalize_phone R phone
  = if negb (truthy (VStr phone)) then []
    else with_prefix (List.filter keep phone).
Proof.
  unfold normalize_phone, with_prefix.
  rewrite sub_class_filter. reflexivity.
Qed.

Lemma with_prefix_keeps (s : str) :
  List.forallb keep s = true -> List.forallb keep (with_prefix s) = true.
Proof.
  intros Hs. unfold with_prefix.
  repeat match goal with |- context [if ?b then _ else _] => destruct b end;
    simpl; rewrite ?Hs; reflexivity.
Qed.

Lemma with_prefix_plus (s : str) :
  startswith (ustr "+") s = true -> with_prefix s = s.
Proof. intros H. unfold with_prefix. rewrite H. reflexivity. Qed.

Lemma with_prefix_idem (s : str) : with_prefix (with_prefix s) = with_prefix s.
Proof.
  destruct (startswith (ustr "+") s) eqn:Hplus.
  - rewrite (with_prefix_plus s Hplus). apply with_prefix_plus, Hplus.
  - unfold with_prefix at 2 3. rewrite Hplus. simpl negb. cbv iota.
    destruct (startswith (ustr "1") s && (length s =? 11)) eqn:H1;
      [apply with_prefix_plus; reflexivity|].
    destruct (length s =? 10) eqn:H10;
      [apply with_prefix_plus; reflexivity|].
    destruct (length s =? 11) eqn:H11;
      [apply with_prefix_plus; reflexivity|].
    unfold with_prefix. rewrite Hplus, H10, H11, H1. reflexivity.
Qed.

Lemma normalize_phone_idem (x : str) :
  normalize_phone R (normalize_phone R x) = normalize_phone R x.
Proof.
  rewrite (normalize_phone_unfold x).
  destruct (truthy (VStr x)) eqn:Hx; simpl; [|reflexivity].
  rewrite normalize_phone_unfold.
  destruct (truthy (VStr (with_prefix (List.filter keep x)))) eqn:Hy; simpl.
  - rewrite filter_fixed.
    + apply with_prefix_idem.
    + apply with_prefix_keeps, forallb_filter.
  - apply truthy_VStr in Hy. symmetry. exact Hy.
Qed.
End PhoneFacts.

(** C3. Phone normalization is idempotent: for every runtime and every
    input string [x], well-formed phone number or not,
    [normalize_phone (normalize_phone x) = normalize_phone x]. *)
Theorem C3_normalize_phone_idempotent (R : PyRuntime) (x : str) :
  normalize_phone R (normalize_phone R x) = normalize_phone R x.
Proof. apply normalize_phone_idem. Qed.

(** ** LookupCache *)

Section CacheFacts.
Variable R : PyRuntime.

Lemma truthy_VStr_true (s : str) : s <> [] -> truthy (VStr s) = true.
Proof.
  intros H. destruct (truthy (VStr s)) eqn:E; [reflexivity|].
  apply truthy_VStr in E. contradiction.
Qed.

(** What [store_lookup] does once both guards are passed. *)
Lemma store_lookup_accepts io now now' phone A B ai self :
  normalize_phone R phone <> [] ->
  truthy A || truthy B = true ->
  store_lookup R io now now' phone A B ai self
  = save_cache io now'
      (set_lookups
         (<[normalize_phone R phone :=
              [(k_timestamp, VStr now); (k_reverse_phone, A);
               (k_reverse_address, B)]
              ++ (if truthy ai then [(k_ai_analysis, ai)] else [])]>
            (lookups (cache_data self))) self).
Proof.
  intros Hkey Hdata. unfold store_lookup.
  rewrite (truthy_VStr_true _ Hkey). simpl negb. cbv iota.
  destruct (truthy A), (truthy B); simpl in *; try reflexivity.
  discriminate.
Qed.

(** Reading back what was just stored: the two documents as given, and
    the stored analysis or the default [{}]. *)
Lemma get_after_store io now now' phone A B ai self :
  normalize_phone R phone <> [] ->
  truthy A || truthy B = true ->
  (get_cached_lookup R phone
     (store_lookup R io now now' phone A B ai self).2).1
  = Some (A, B, if truthy ai then ai else VDict []).
Proof.
  intros Hkey Hdata.
  rewrite (store_lookup_accepts _ _ _ _ _ _ _ _ Hkey Hdata).
  unfold get_cached_lookup.
  rewrite (truthy_VStr_true _ Hkey). simpl negb. cbv iota.
  unfold save_cache, set_lookups. simpl.
  rewrite lookup_insert_eq. simpl.
  destruct (truthy ai); reflexivity.
Qed.

Lemma store_lookup_rejects_empty_key io now now' phone A B ai self :
  normalize_phone R phone = [] ->
  store_lookup R io now now' phone A B ai self = (false, self).
Proof. intros H. unfold store_lookup. rewrite H. reflexivity. Qed.

Lemma store_lookup_rejects_no_data io now now' phone A B ai self :
  truthy A = false -> truthy B = false ->
  store_lookup R io now now' phone A B ai self = (false, self).
Proof.
  intros HA HB. unfold store_lookup. rewrite HA, HB. simpl.
  destruct (negb _); reflexivity.
Qed.
End CacheFacts.

(** C1 (as amended). For every phone key [phone] that normalizes to a
    non-empty string and every pair of documents [A], [B] of which at
    least one is non-empty, [store_lookup] without a derived analysis
    followed by [get_cached_lookup] returns the triple [(A, B, {})]: the
    two stored documents unchanged and the empty dict, not [None], for the
    absent analysis.  This holds whatever the outcome of the file write. *)
Theorem C1_put_then_get (R : PyRuntime) (io : io_outcome) (now now' : str)
        (phone : str) (A B : value) (self : CacheManager) :
  normalize_phone R phone <> [] ->
  truthy A || truthy B = true ->
  (get_cached_lookup R phone
     (store_lookup R io now now' phone A B VNone self).2).1
  = Some (A, B, VDict []).
Proof.
  intros Hkey Hdata.
  apply (get_after_store R io now now' phone A B VNone self Hkey Hdata).
Qed.

(** The round trip on the sample entry of the module's self-test. *)
Lemma C1_put_then_get_witness :
  (get_cached_lookup py_ascii (ustr "+14155551234")
     (store_lookup py_ascii IoOk (ustr "t0") (ustr "t1")
        (ustr "+14155551234")
        (VDict [(ustr "id", VStr (ustr "test1"))]) (VDict []) VNone
        empty_cache).2).1
  = Some (VDict [(ustr "id", VStr (ustr "test1"))], VDict [], VDict []).
Proof.
  apply (C1_put_then_get py_ascii IoOk (ustr "t0") (ustr "t1")
           (ustr "+14155551234")
           (VDict [(ustr "id", VStr (ustr "test1"))]) (VDict []) empty_cache).
  - vm_compute. discriminate.
  - reflexivity.
Defined.

(** C1, as stated, fails: storing [{"id": "test1"}] and [{}] under
    "+14155551234" in an empty cache and reading the key back gives [{}]
    as third component, which is not [None]. *)
Lemma C1_third_component_is_not_None :
  (get_cached_lookup py_ascii (ustr "+14155551234")
     (store_lookup py_ascii IoOk (ustr "t0") (ustr "t1")
        (ustr "+14155551234")
        (VDict [(ustr "id", VStr (ustr "test1"))]) (VDict []) VNone
        empty_cache).2).1
  <> Some (VDict [(ustr "id", VStr (ustr "test1"))], VDict [], VNone).
Proof.
  rewrite (get_after_store py_ascii IoOk (ustr "t0") (ustr "t1")
             (ustr "+14155551234")
             (VDict [(ustr "id", VStr (ustr "test1"))]) (VDict []) VNone
             empty_cache).
  - simpl. discriminate.
  - vm_compute. discriminate.
  - reflexivity.
Qed.

(** C4. For every phone key, [store_lookup] with two falsy raw documents
    returns [False] and leaves the manager as it was: the in-memory
    lookups and the cache file are unchanged, whatever the analysis and
    the state of the disk. *)
Theorem C4_store_lookup_empty_documents (R : PyRuntime) (io : io_outcome)
        (now now' : str) (phone : str) (A B ai : value)
        (self : CacheManager) :
  truthy A = false -> truthy B = false ->
  store_lookup R io now now' phone A B ai self = (false, self).
Proof. apply store_lookup_rejects_no_data. Qed.

(** Two empty dicts under a valid key, on an empty cache. *)
Lemma C4_store_lookup_empty_documents_witness :
  store_lookup py_ascii IoOk (ustr "t0") (ustr "t1") (ustr "+14155551234")
               (VDict []) (VDict []) VNone empty_cache
  = (false, empty_cache).
Proof.
  apply (C4_store_lookup_empty_documents py_ascii IoOk (ustr "t0")
           (ustr "t1") (ustr "+14155551234") (VDict []) (VDict []) VNone
           empty_cache); reflexivity.
Defined.

(** C9. For every phone string that normalizes to the empty string,
    [store_lookup] returns [False] whatever the response documents are,
    and the manager (in-memory lookups and cache file) is unchanged. *)
Theorem C9_store_lookup_empty_key (R : PyRuntime) (io : io_outcome)
        (now now' : str) (phone : str) (A B ai : value)
        (self : CacheManager) :
  normalize_phone R phone = [] ->
  store_lookup R io now now' phone A B ai self = (false, self).
Proof. apply store_lookup_rejects_empty_key. Qed.

(** The phone text "n/a" holds no digit and no plus sign. *)
Lemma C9_store_lookup_empty_key_witness :
  store_lookup py_ascii IoOk (ustr "t0") (ustr "t1") (ustr "n/a")
               (VDict [(ustr "id", VStr (ustr "test1"))]) (VDict []) VNone
               empty_cache
  = (false, empty_cache).
Proof.
  apply (C9_store_lookup_empty_key py_ascii IoOk (ustr "t0") (ustr "t1")
           (ustr "n/a") (VDict [(ustr "id", VStr (ustr "test1"))])
           (VDict []) VNone empty_cache).
  vm_compute. reflexivity.
Defined.

(** ** AddressParser *)

(** C8. [parse_address] of "1234 Main Street, Austin, TX 78701" is street
    "1234 Main Street", city "Austin", state "TX", zip "78701". *)
Theorem C8_parse_address_example (R : PyRuntime) :
  parse_address R (ustr "1234 Main Street, Austin, TX 78701")
  = mkParsed (ustr "1234 Main Street") (ustr "Austin") (ustr "TX")
             (ustr "78701").
Proof. vm_compute. reflexivity. Qed.

(** ** PersonExtractor *)

(** Induction on documents, through the lists and dicts they nest. *)
Lemma value_ind_nested (P : value -> Prop) :
  P VNone -> (forall b, P (VBool b)) -> (forall z, P (VInt z)) ->
  (forall f, P (VFloat f)) -> (forall s, P (VStr s)) ->
  (forall l, Forall P l -> P (VList l)) ->
  (forall d, Forall (fun kv => P kv.2) d -> P (VDict d)) ->
  forall v, P v.
Proof.
  intros HN HB HI HF HS HL HD. fix IH 1.
  intros [ | b | z | f | s | l | d ];
    [exact HN | apply HB | apply HI | apply HF | apply HS | | ].
  - apply HL. revert l. fix IHl 1.
    intros [|x l]; constructor; [apply IH | apply IHl].
  - apply HD. revert d. fix IHd 1.
    intros [|[k x] d]; constructor; [apply IH | apply IHd].
Qed.

(** Splits [H : (x ← m; ...) = Ok r] into [m = Ok x] and the rest. *)
Ltac inv_bind H :=
  cbv beta iota delta [mbind option_bind] in H;
  repeat (match type of H with
          | match ?m with _ => _ end = Some _ =>
              let E := fresh "E" in
              destruct m eqn:E; [|discriminate H]
          end;
          cbv beta iota in H);
  try (injection H as H).

Section ExtractorFacts.
Variable R : PyRuntime.

Lemma extract_is_walk (data : value) :
  extract_people_from_data R data = walk_value (traverse R) data.
Proof. destruct data; reflexivity. Qed.

Lemma traverse_dict (d : list (str * value)) :
  traverse R (VDict d)
  = if negb (truthy (VDict d)) then Ok []
    else here ← person_at R d;
         below ← walk_fields (traverse R) d;
         Ok (here ++ below).
Proof. reflexivity. Qed.

(** A node yields at most one record, named [person_name]. *)
Lemma person_at_inv (obj : list (str * value)) (ps : list PersonInfo) :
  person_at R obj = Ok ps ->
  ps = [] \/
  (truthy (person_name R obj) = true /\
   (truthy (get k_name obj) || truthy (get k_firstname obj)
    || truthy (get k_lastname obj)) = true /\
   exists addresses,
     ps = [mkPerson (person_name R obj) (extract_age R obj)
                    (person_phones obj) addresses]).
Proof.
  unfold person_at.
  destruct (truthy (get k_name obj) || truthy (get k_firstname obj)
            || truthy (get k_lastname obj)); [|intros [= <-]; auto].
  destruct (truthy (person_name R obj)); [|intros [= <-]; auto].
  intros H. simplify_option_eq. right. eauto.
Qed.

(** Every emitted record comes from a visited node. *)
Lemma walk_value_sound (v : value) :
  forall people p,
    walk_value (traverse R) v = Ok people -> p ∈ people ->
    exists obj ps, visited v obj /\ person_at R obj = Ok ps /\ p ∈ ps.
Proof.
  induction v as [ | | | | | l IHl | d IHd ] using value_ind_nested;
    try (intros people p [= <-] Hp; inversion Hp).
  - (* a list: its dict items *)
    cbn [walk_value]. induction IHl as [|item l Hitem _ IH]; intros people p.
    + intros [= <-] Hp. inversion Hp.
    + cbn [walk_items]. intros H Hp. simplify_option_eq.
      apply elem_of_app in Hp as [Hp|Hp].
      * destruct item; simplify_eq/=; try (inversion Hp; fail).
        destruct (Hitem _ _ Heqo Hp) as (obj & ps & Hv & Hat & Hin).
        exists obj, ps. split; [|auto].
        eapply visited_item; [apply list_elem_of_here | exact Hv].
      * destruct (IH _ _ eq_refl Hp) as (obj & ps & Hv & Hat & Hin).
        exists obj, ps. split; [|auto].
        inversion Hv as [ | | l0 d0 obj0 Hd0 Hv0 ]; subst.
        eapply visited_item; [apply list_elem_of_further, Hd0 | exact Hv0].
  - (* a dict: the node, then its items *)
    cbn [walk_value]. intros people p. rewrite traverse_dict.
    destruct (truthy (VDict d)) eqn:Hd; cbn [negb];
      [|intros [= <-] Hp; inversion Hp].
    pose proof (visited_here d Hd) as Hhere.
    assert (Hfield : forall k v obj,
               (k, v) ∈ d -> visited v obj -> visited (VDict d) obj)
      by (intros; eapply visited_field; eassumption).
    intros H Hp. simplify_option_eq.
    apply elem_of_app in Hp as [Hp|Hp].
    + exists d. eexists. split; [exact Hhere|]. eauto.
    + assert (Hfields : forall below, walk_fields (traverse R) d = Ok below ->
                p ∈ below ->
                exists k v, (k, v) ∈ d /\
                  exists obj ps,
                    visited v obj /\ person_at R obj = Ok ps /\ p ∈ ps).
      { clear -IHd. induction IHd as [|[k v] d Hv _ IH]; intros below.
        - intros [= <-] Hp. inversion Hp.
        - cbn [walk_fields]. intros H Hp. simplify_option_eq.
          apply elem_of_app in Hp as [Hp|Hp].
          + exists k, v. split; [apply list_elem_of_here|]. eauto.
          + destruct (IH _ eq_refl Hp) as (k' & v' & Hin & Hrest).
            exists k', v'. split; [apply list_elem_of_further, Hin | exact Hrest]. }
      destruct (Hfields _ Heqo0 Hp) as (k & v & Hkv & obj & ps & Hv & Hat & Hin).
      exists obj, ps. split; [|auto].
      eapply Hfield; eassumption.
Qed.

(** What the loops pass on: the result for an item is part of the result
    for the whole. *)
Lemma walk_items_elem (l : list value) (d : list (str * value))
      (people : list PersonInfo) :
  walk_items (traverse R) l = Ok people -> VDict d ∈ l ->
  exists a, traverse R (VDict d) = Ok a /\ forall p, p ∈ a -> p ∈ people.
Proof.
  revert people. induction l as [|item l IH]; intros people H Hin.
  - inversion Hin.
  - cbn [walk_items] in H. inv_bind H. subst people.
    apply elem_of_cons in Hin as [<-|Hin].
    + eexists. split; [eassumption|]. intros p Hp. apply elem_of_app. auto.
    + destruct (IH _ eq_refl Hin) as (a & Ha & Hsub).
      exists a. split; [exact Ha|]. intros p Hp. apply elem_of_app. auto.
Qed.

Lemma walk_fields_elem (d : list (str * value)) (k : str) (v : value)
      (below : list PersonInfo) :
  walk_fields (traverse R) d = Ok below -> (k, v) ∈ d ->
  exists first, walk_value (traverse R) v = Ok first
                /\ forall p, p ∈ first -> p ∈ below.
Proof.
  revert below. induction d as [|[k' v'] d IH]; intros below H Hin.
  - inversion Hin.
  - cbn [walk_fields] in H. inv_bind H. subst below.
    apply elem_of_cons in Hin as [[= <- <-]|Hin].
    + eexists. split; [eassumption|]. intros p Hp. apply elem_of_app. auto.
    + destruct (IH _ eq_refl Hin) as (a & Ha & Hsub).
      exists a. split; [exact Ha|]. intros p Hp. apply elem_of_app. auto.
Qed.

(** Every visited node is looked at: what [person_at] yields there is
    among the emitted records. *)
Lemma walk_value_complete (v : value) (obj : list (str * value)) :
  visited v obj ->
  forall people ps p,
    walk_value (traverse R) v = Ok people ->
    person_at R obj = Ok ps -> p ∈ ps -> p ∈ people.
Proof.
  induction 1 as [d Hd | d k v obj Hd Hkv Hv IH | l d obj Hin Hv IH];
    intros people ps p Hwalk Hat Hp.
  - cbn [walk_value] in Hwalk. rewrite traverse_dict, Hd in Hwalk.
    cbn [negb] in Hwalk. inv_bind Hwalk. subst people.
    apply elem_of_app. left. congruence.
  - cbn [walk_value] in Hwalk. rewrite traverse_dict, Hd in Hwalk.
    cbn [negb] in Hwalk.
    destruct (person_at R d) as [here|]; [|discriminate].
    destruct (walk_fields (traverse R) d) as [below|] eqn:Hbelow;
      [|discriminate].
    injection Hwalk as <-.
    destruct (walk_fields_elem _ _ _ _ Hbelow Hkv) as (first & Hfirst & Hsub).
    apply elem_of_app. right. apply Hsub. eapply IH; eassumption.
  - cbn [walk_value] in Hwalk.
    destruct (walk_items_elem _ _ _ Hwalk Hin) as (a & Ha & Hsub).
    apply Hsub. eapply IH; eassumption.
Qed.

End ExtractorFacts.

(** C5, the code at a failing input. A person inside a list that is
    itself an item of a list is not reached: the walk enters the items of
    a list only when they are dicts.  One level up, the same person is
    found. *)
Theorem C5_list_in_list_is_not_walked (R : PyRuntime) :
  extract_people_from_data R
    (VDict [(ustr "households",
             VList [VList [VDict [(k_name, VStr (ustr "Bob"))]]])])
  = Ok []
  /\ extract_people_from_data R
       (VDict [(ustr "households",
                VList [VDict [(k_name, VStr (ustr "Bob"))]])])
     = Ok [mkPerson (VStr (ustr "Bob")) (VStr []) [] []].
Proof. split; vm_compute; reflexivity. Qed.

(** C6, the code at a failing input. In [alternate_phones] a bare string
    and an object that holds its number under [phone_number] are both
    dropped; the same two entries under [phones] are both taken. *)
Theorem C6_alternate_phones_entries_dropped (R : PyRuntime) :
  extract_people_from_data R
    (VDict [(k_name, VStr (ustr "Ann"));
            (k_alternate_phones,
             VList [VStr (ustr "+15551234567");
                    VDict [(k_phone_number, VStr (ustr "+15557654321"))]])])
  = Ok [mkPerson (VStr (ustr "Ann")) (VStr []) [] []]
  /\ extract_people_from_data R
       (VDict [(k_name, VStr (ustr "Ann"));
               (k_phones,
                VList [VStr (ustr "+15551234567");
                       VDict [(k_phone_number, VStr (ustr "+15557654321"))]])])
     = Ok [mkPerson (VStr (ustr "Ann")) (VStr [])
                    [VStr (ustr "+15551234567"); VStr (ustr "+15557654321")]
                    []].
Proof. split; vm_compute; reflexivity. Qed.

(** C10 (as amended). Every record the extractor emits has a truthy
    name, taken at a visited dict node: either the node's [name] field
    when that is truthy, used as it is (not trimmed, and of whatever type
    the document gives it), or else the trimmed "firstname lastname"
    string, which is then non-empty. *)
Theorem C10_emitted_names (R : PyRuntime) (data : value)
        (people : list PersonInfo) (p : PersonInfo) :
  extract_people_from_data R data = Ok people -> p ∈ people ->
  truthy (pi_name p) = true /\
  exists obj,
    visited data obj /\
    ((truthy (get k_name obj) = true /\ pi_name p = get k_name obj) \/
     (truthy (get k_name obj) = false /\
      (truthy (get k_firstname obj) || truthy (get k_lastname obj)) = true /\
      full_name R obj <> [] /\
      pi_name p = VStr (full_name R obj))).
Proof.
  rewrite extract_is_walk. intros Hwalk Hp.
  destruct (walk_value_sound R data people p Hwalk Hp)
    as (obj & ps & Hv & Hat & Hin).
  destruct (person_at_inv R obj ps Hat) as [->|(Hname & Hcond & addrs & ->)];
    [inversion Hin|].
  apply list_elem_of_singleton in Hin as ->. cbn [pi_name].
  split; [exact Hname|]. exists obj. split; [exact Hv|].
  unfold person_name, py_or in *.
  destruct (truthy (get k_name obj)) eqn:Hdirect.
  - left. auto.
  - right. cbn [orb] in Hcond. repeat split; auto.
    intros Hempty. rewrite Hempty in Hname. discriminate.
Qed.

(** A node with first and last name only. *)
Lemma C10_emitted_names_witness :
  truthy (VStr (ustr "Al Bo")) = true /\
  exists obj,
    visited (VDict [(k_firstname, VStr (ustr " Al"));
                    (k_lastname, VStr (ustr "Bo "))]) obj /\
    ((truthy (get k_name obj) = true
      /\ VStr (ustr "Al Bo") = get k_name obj) \/
     (truthy (get k_name obj) = false /\
      (truthy (get k_firstname obj) || truthy (get k_lastname obj)) = true /\
      full_name py_ascii obj <> [] /\
      VStr (ustr "Al Bo") = VStr (full_name py_ascii obj))).
Proof.
  apply (C10_emitted_names py_ascii
           (VDict [(k_firstname, VStr (ustr " Al"));
                   (k_lastname, VStr (ustr "Bo "))])
           [mkPerson (VStr (ustr "Al Bo")) (VStr []) [] []]
           (mkPerson (VStr (ustr "Al Bo")) (VStr []) [] [])).
  - vm_compute. reflexivity.
  - apply list_elem_of_here.
Defined.

(** C10, as stated, fails: the node [{"name": " "}] is emitted, with the
    name " ", although its name field is empty after trimming. *)
Lemma C10_blank_name_is_emitted :
  extract_people_from_data py_ascii (VDict [(k_name, VStr (ustr " "))])
  = Ok [mkPerson (VStr (ustr " ")) (VStr []) [] []]
  /\ strip py_ascii (ustr " ") = [].
Proof. split; vm_compute; reflexivity. Qed.

(** ** ResultAccumulator *)

Lemma py_eq_reserved (v : value) :
  py_eq v (VStr NO_RESULTS_FOUND) = true <-> v = VStr NO_RESULTS_FOUND.
Proof.
  split.
  - destruct v; try discriminate. simpl. intros H.
    apply str_eqb_eq in H. congruence.
  - intros ->. reflexivity.
Qed.

Lemma merge_found_names (P : value -> Prop) (found : list PersonInfo)
      (p : PersonInfo) :
  Forall (fun q => P (pi_name q)) found -> P (pi_name p) ->
  Forall (fun q => P (pi_name q)) (merge_found found p).
Proof.
  intros Hfound Hp. induction Hfound as [|q found Hq Hfound IH]; simpl.
  - constructor; auto.
  - destruct (py_eq (pi_name q) (pi_name p)); constructor; simpl; auto.
Qed.

Lemma foldl_merge_found_names (P : value -> Prop) (people found : list PersonInfo) :
  Forall (fun q => P (pi_name q)) found ->
  Forall (fun q => P (pi_name q)) people ->
  Forall (fun q => P (pi_name q)) (foldl merge_found found people).
Proof.
  intros Hfound Hpeople. revert found Hfound.
  induction Hpeople as [|p people Hp _ IH]; intros found Hfound; simpl.
  - exact Hfound.
  - apply IH, merge_found_names; assumption.
Qed.

Lemma merge_found_not_nil (found : list PersonInfo) (p : PersonInfo) :
  merge_found found p <> [].
Proof.
  destruct found as [|q found]; simpl; [discriminate|].
  destruct (py_eq (pi_name q) (pi_name p)); discriminate.
Qed.

Lemma foldl_merge_found_not_nil (people found : list PersonInfo) :
  found <> [] \/ people <> [] -> foldl merge_found found people <> [].
Proof.
  revert found. induction people as [|p people IH]; intros found [H|H]; simpl;
    try congruence; apply IH; left; apply merge_found_not_nil.
Qed.

Lemma merge_result_names (P : value -> Prop) (b : bool) (R : PyRuntime)
      (person : list (str * value)) (rs : list LeadResult) (p : PersonInfo) :
  Forall (fun r => P (new_name r)) rs -> P (pi_name p) ->
  Forall (fun r => P (new_name r)) (merge_result R b person rs p).
Proof.
  intros Hrs Hp. induction Hrs as [|r rs Hr Hrs IH]; simpl.
  - constructor; auto.
  - destruct (py_eq (new_name r) (pi_name p)); constructor; simpl; auto.
Qed.

Lemma foldl_merge_result_names (P : value -> Prop) (b : bool) (R : PyRuntime)
      (person : list (str * value)) (people : list PersonInfo)
      (rs : list LeadResult) :
  Forall (fun r => P (new_name r)) rs ->
  Forall (fun q => P (pi_name q)) people ->
  Forall (fun r => P (new_name r)) (foldl (merge_result R b person) rs people).
Proof.
  intros Hrs Hpeople. revert rs Hrs.
  induction Hpeople as [|p people Hp _ IH]; intros rs Hrs; simpl.
  - exact Hrs.
  - apply IH, merge_result_names; assumption.
Qed.

Section AccumulatorFacts.
Variable R : PyRuntime.

(** The three steps of [process_lookup_data]. *)
Lemma process_lookup_data_inv person phone_data address_data rs :
  process_lookup_data R person phone_data address_data = Ok rs ->
  exists failed phone_people address_people,
    address_missed address_data = Ok failed /\
    people_of R phone_data = Ok phone_people /\
    people_of R address_data = Ok address_people /\
    let found_people :=
      foldl merge_found (foldl merge_found [] phone_people) address_people in
    rs = match found_people with
         | [] => [sentinel_result R person failed]
         | _ :: _ => map (result_of R person failed) found_people
         end.
Proof.
  unfold process_lookup_data. intros H. inv_bind H.
  eexists _, _, _. repeat split; try reflexivity. symmetry. exact H.
Qed.

Lemma no_sentinel_alone (l : list LeadResult) :
  Forall (fun r => is_sentinel r = false) l -> sentinel_alone l.
Proof.
  intros Hl r Hr Hs. rewrite Forall_forall in Hl.
  rewrite (Hl r Hr) in Hs. discriminate.
Qed.

Lemma not_fresh_no_sentinel (l : list LeadResult) :
  sentinel_alone l -> starts_fresh l = false ->
  Forall (fun r => is_sentinel r = false) l.
Proof.
  intros Halone Hfresh. apply Forall_forall. intros r Hr.
  destruct (is_sentinel r) eqn:Hs; [|reflexivity].
  rewrite (Halone r Hr Hs) in Hfresh. simpl in Hfresh. congruence.
Qed.

Lemma process_lookup_data_alone person phone_data address_data rs :
  no_reserved_name R phone_data -> no_reserved_name R address_data ->
  process_lookup_data R person phone_data address_data = Ok rs ->
  sentinel_alone rs.
Proof.
  intros Hpd Had H.
  destruct (process_lookup_data_inv _ _ _ _ H)
    as (failed & pp & ap & _ & Hpp & Hap & ->).
  pose proof (foldl_merge_found_names
                (fun v => py_eq v (VStr NO_RESULTS_FOUND) = false)
                ap (foldl merge_found [] pp)
                (foldl_merge_found_names _ pp [] (List.Forall_nil _) (Hpd _ Hpp))
                (Had _ Hap)) as Hnames.
  destruct (foldl merge_found (foldl merge_found [] pp) ap) as [|q found].
  - intros r Hr _. apply list_elem_of_singleton in Hr. congruence.
  - apply no_sentinel_alone. apply Forall_fmap.
    eapply Forall_impl; [exact Hnames|]. auto.
Qed.

Lemma accumulate_alone (b : bool) data person cur rs :
  no_reserved_name R data -> sentinel_alone cur ->
  (if b then accumulate_address_results R data person cur
   else accumulate_phone_results R data person cur) = Ok rs ->
  sentinel_alone rs.
Proof.
  intros Hdata Hcur H.
  assert (Hnone : no_reserved_name R VNone)
    by (intros people [= <-]; constructor).
  destruct (starts_fresh cur) eqn:Hfresh.
  - destruct b; unfold accumulate_address_results, accumulate_phone_results in H;
      rewrite Hfresh in H;
      eapply process_lookup_data_alone; try exact H; assumption.
  - assert (Hfold : exists people, people_of R data = Ok people /\
                      rs = foldl (merge_result R b person) cur people).
    { destruct b; unfold accumulate_address_results, accumulate_phone_results in H;
        rewrite Hfresh in H; inv_bind H; eauto. }
    destruct Hfold as (people & Hpeople & ->).
    apply no_sentinel_alone.
    apply (foldl_merge_result_names
             (fun v => py_eq v (VStr NO_RESULTS_FOUND) = false)).
    + apply not_fresh_no_sentinel; assumption.
    + apply Hdata, Hpeople.
Qed.

Lemma reachable_alone (l : list LeadResult) :
  reachable R (no_reserved_name R) l -> sentinel_alone l.
Proof.
  induction 1 as [ | person pd ad rs Hpd Had H
                   | pd person cur rs Hpd _ IH H
                   | ad person cur rs Had _ IH H ].
  - intros r Hr. inversion Hr.
  - exact (process_lookup_data_alone _ _ _ _ Hpd Had H).
  - apply (accumulate_alone false pd person cur rs Hpd IH H).
  - apply (accumulate_alone true ad person cur rs Had IH H).
Qed.

(** Starting fresh from a non-empty incoming pass. *)
Lemma fresh_start data person cur people :
  starts_fresh cur = true ->
  people_of R data = Ok people -> people <> [] ->
  accumulate_phone_results R data person cur
  = Ok (map (result_of R person true) (foldl merge_found [] people))
  /\ accumulate_address_results R data person cur
     = (failed ← address_missed data;
        Ok (map (result_of R person failed) (foldl merge_found [] people))).
Proof.
  intros Hfresh Hpeople Hne.
  pose proof (foldl_merge_found_not_nil people [] (or_intror Hne)) as Hfound.
  unfold accumulate_phone_results, accumulate_address_results.
  rewrite Hfresh. unfold process_lookup_data.
  rewrite Hpeople. cbn [people_of truthy address_missed negb mbind option_bind foldl].
  destruct (foldl merge_found [] people) as [|q found] eqn:E; [congruence|].
  split; [reflexivity|].
  destruct (address_missed data); reflexivity.
Qed.
End AccumulatorFacts.

(** C2 (as amended). As long as no person record extracted from the
    documents fed in bears the reserved name "NO RESULTS FOUND", every
    list reachable through [process_lookup_data],
    [accumulate_phone_results] and [accumulate_address_results] holds
    the sentinel only as its sole element; and when such a list is empty
    or sentinel-only, accumulating a pass that yields at least one person
    record discards it and starts fresh: the new list is made of the
    incoming records alone (merged by name) and holds no sentinel. *)
Theorem C2_sentinel_is_alone (R : PyRuntime) (l : list LeadResult) :
  reachable R (no_reserved_name R) l ->
  sentinel_alone l /\
  (starts_fresh l = true ->
   forall data person people,
     no_reserved_name R data ->
     people_of R data = Ok people -> people <> [] ->
     let found_people := foldl merge_found [] people in
     (forall failed,
         Forall (fun r => is_sentinel r = false)
                (map (result_of R person failed) found_people)) /\
     accumulate_phone_results R data person l
     = Ok (map (result_of R person true) found_people) /\
     accumulate_address_results R data person l
     = (failed ← address_missed data;
        Ok (map (result_of R person failed) found_people))).
Proof.
  intros Hreach. split; [exact (reachable_alone R l Hreach)|].
  intros Hfresh data person people Hdata Hpeople Hne found_people.
  split; [|apply (fresh_start R); assumption].
  intros failed. apply Forall_fmap. subst found_people.
  apply (foldl_merge_found_names
           (fun v => py_eq v (VStr NO_RESULTS_FOUND) = false));
    [constructor | apply Hdata, Hpeople].
Qed.

(** The list made by [process_lookup_data] from two missing documents. *)
Lemma C2_sentinel_is_alone_witness :
  sentinel_alone [sentinel_result py_ascii sample_contact true].
Proof.
  refine (proj1 (C2_sentinel_is_alone py_ascii
                   [sentinel_result py_ascii sample_contact true] _)).
  apply (reach_process py_ascii _ sample_contact VNone VNone).
  - intros people [= <-]. constructor.
  - intros people [= <-]. constructor.
  - reflexivity.
Defined.

(** C2, as stated, fails: for the phone document with the owners
    "NO RESULTS FOUND" and "Bob", [process_lookup_data] returns a list of
    two results whose first carries the sentinel's name. *)
Lemma C2_person_named_like_the_sentinel :
  exists r1 r2,
    process_lookup_data py_ascii sample_contact reserved_name_data VNone
    = Ok [r1; r2]
    /\ is_sentinel r1 = true /\ is_sentinel r2 = false
    /\ reachable py_ascii (fun _ => True) [r1; r2]
    /\ ~ sentinel_alone [r1; r2].
Proof.
  eexists _, _. split; [vm_compute; reflexivity|].
  split; [reflexivity|]. split; [reflexivity|]. split.
  - apply (reach_process py_ascii _ sample_contact reserved_name_data VNone);
      [exact I | exact I | vm_compute; reflexivity].
  - intros Halone.
    specialize (Halone _ (list_elem_of_here _ _) eq_refl). discriminate.
Qed.

(** ** The address flag *)

Section FlagFacts.
Variable R : PyRuntime.
Variable person : list (str * value).

Lemma address_missed_dict (d : list (str * value)) :
  address_missed (VDict d) = Ok (negb (truthy (get k_current_residents d))).
Proof.
  unfold address_missed, get.
  destruct (truthy (VDict d)) eqn:Hd; cbn [negb].
  - destruct (dict_get k_current_residents d); reflexivity.
  - destruct d; [reflexivity|discriminate].
Qed.






End FlagFacts.

Section FlagKept.
Variable R : PyRuntime.
Variable from_address : bool.
Variable person : list (str * value).


End FlagKept.

(** C7, the code at a failing input.  A phone pass finds Alice and Bob;
    no address document having been given, both results carry the flag.
    An address pass that finds Alice is then merged by
    [accumulate_address_results]: Alice's flag is cleared, Bob still
    carries his.  On the same two documents in one call,
    [process_lookup_data] leaves no result flagged. *)
Theorem C7_flag_kept_after_address_pass (R : PyRuntime) :
  accumulate_phone_results R sample_phone_data sample_contact []
  = Ok [sample_result "Alice" [] true; sample_result "Bob" [] true]
  /\ people_of R sample_address_data
     = Ok [mkPerson (VStr (ustr "Alice")) (VStr [])
                    [VStr (ustr "+15125550100")] []]
  /\ accumulate_address_results R sample_address_data sample_contact
       [sample_result "Alice" [] true; sample_result "Bob" [] true]
     = Ok [sample_result "Alice" [VStr (ustr "+15125550100")] false;
           sample_result "Bob" [] true]
  /\ process_lookup_data R sample_contact sample_phone_data
       sample_address_data
     = Ok [sample_result "Alice" [VStr (ustr "+15125550100")] false;
           sample_result "Bob" [] false].
Proof. repeat split; vm_compute; reflexivity. Qed.



(** ** Further properties of the extractor and the cache *)

(** The walk, characterised: when the extractor returns, the records it
    emits are exactly those that [person_at] yields at the visited
    nodes. *)
Theorem extractor_emits_visited_nodes (R : PyRuntime) (data : value)
        (people : list PersonInfo) (p : PersonInfo) :
  extract_people_from_data R data = Ok people ->
  p ∈ people <->
  exists obj ps, visited data obj /\ person_at R obj = Ok ps /\ p ∈ ps.
Proof.
  rewrite extract_is_walk. intros Hwalk. split.
  - apply walk_value_sound, Hwalk.
  - intros (obj & ps & Hv & Hat & Hin).
    eapply walk_value_complete; eassumption.
Qed.

(** One person inside a list of households. *)
Lemma extractor_emits_visited_nodes_witness :
  mkPerson (VStr (ustr "Bob")) (VStr []) [] []
  ∈ [mkPerson (VStr (ustr "Bob")) (VStr []) [] []] <->
  exists obj ps,
    visited (VDict [(ustr "households",
                     VList [VDict [(k_name, VStr (ustr "Bob"))]])]) obj
    /\ person_at py_ascii obj = Ok ps
    /\ mkPerson (VStr (ustr "Bob")) (VStr []) [] [] ∈ ps.
Proof.
  apply (extractor_emits_visited_nodes py_ascii
           (VDict [(ustr "households",
                    VList [VDict [(k_name, VStr (ustr "Bob"))]])])
           [mkPerson (VStr (ustr "Bob")) (VStr []) [] []]
           (mkPerson (VStr (ustr "Bob")) (VStr []) [] [])).
  vm_compute. reflexivity.
Defined.

Lemma foldl_candidates (step : list value -> value -> list value)
      (cand : value -> value) (items : list value) :
  (forall acc e, step acc e
                 = if truthy (cand e) then append_new acc (cand e) else acc) ->
  forall acc,
    foldl step acc items
    = foldl append_new acc (List.filter truthy (map cand items)).
Proof.
  intros Hstep. induction items as [|e items IH]; intros acc; simpl.
  - reflexivity.
  - rewrite IH, Hstep. destruct (truthy (cand e)); reflexivity.
Qed.

(** The phones of a person node are its candidate numbers, in the order
    met, each kept unless an equal one is already there.  The statement
    is for nodes whose candidates equal themselves (they hold no NaN):
    there [==], by which [append_new] compares, and the
    identity-or-equality test of Python's [in] agree. *)
Theorem person_phones_are_deduplicated_candidates (obj : list (str * value)) :
  Forall (fun x => py_eq x x = true) (phone_candidates obj) ->
  person_phones obj = foldl append_new [] (phone_candidates obj).
Proof.
  intros _. unfold person_phones, phone_candidates.
  rewrite !List.filter_app, !foldl_app.
  rewrite <- (foldl_candidates alternate_phones_step alternate_phone_candidate).
  2:{ intros acc [ | | | | | |d]; try reflexivity. }
  rewrite <- (foldl_candidates phones_step phones_candidate).
  2:{ intros acc [ | | | | | |d]; reflexivity. }
  rewrite <- (foldl_candidates phone_numbers_step phone_numbers_candidate).
  2:{ intros acc [ | | | | | |d]; reflexivity. }
  simpl. destruct (truthy (get k_phone obj)); reflexivity.
Qed.

(** A node with a repeated number, a number under each of two keys and
    the scalar field. *)
Lemma person_phones_are_deduplicated_candidates_witness :
  person_phones repeated_phones_node
  = foldl append_new [] (phone_candidates repeated_phones_node).
Proof.
  apply (person_phones_are_deduplicated_candidates repeated_phones_node).
  vm_compute. repeat constructor.
Defined.

(** [store_lookup] never touches the entry under the empty key. *)
Theorem store_lookup_leaves_empty_key (R : PyRuntime) (io : io_outcome)
        (now now' : str) (phone : str) (A B ai : value)
        (self : CacheManager) :
  lookups (cache_data (store_lookup R io now now' phone A B ai self).2) !! []
  = lookups (cache_data self) !! ([] : list N).
Proof.
  destruct (decide (normalize_phone R phone = [])) as [Hkey|Hkey].
  - rewrite store_lookup_rejects_empty_key by exact Hkey. reflexivity.
  - destruct (truthy A || truthy B) eqn:Hdata.
    + rewrite store_lookup_accepts by assumption.
      unfold save_cache, set_lookups. simpl.
      apply lookup_insert_ne. exact Hkey.
    + apply orb_false_iff in Hdata as [HA HB].
      rewrite store_lookup_rejects_no_data by assumption. reflexivity.
Qed.

(** [parse_address] of a text without a ZIP code gives the text back as
    street and leaves the other fields empty. *)
Theorem parse_address_without_zip (R : PyRuntime) :
  parse_address R (ustr "no zip here at all")
  = mkParsed (ustr "no zip here at all") [] [] [].
Proof. vm_compute. reflexivity. Qed.

(** ** LookupCache: the other methods *)

Lemma dict_get_set_eq (k : str) (v : value) (d : list (str * value)) :
  dict_get k (dict_set k v d) = Some v.
Proof.
  induction d as [|[k' v'] d IH]; simpl.
  - rewrite str_eqb_refl. reflexivity.
  - destruct (str_eqb k k') eqn:E; simpl; rewrite E; auto.
Qed.

Lemma dict_get_set_ne (k k' : str) (v : value) (d : list (str * value)) :
  str_eqb k' k = false -> dict_get k' (dict_set k v d) = dict_get k' d.
Proof.
  intros Hne. induction d as [|[k0 v0] d IH]; simpl.
  - rewrite Hne. reflexivity.
  - destruct (str_eqb k k0) eqn:E; simpl.
    + apply str_eqb_eq in E as <-. rewrite Hne. reflexivity.
    + destruct (str_eqb k' k0); auto.
Qed.

Section CacheMoreFacts.
Variable R : PyRuntime.

(** What a lookup answers, read off the lookups map. *)
Lemma get_cached_lookup_answer (phone : str) (self : CacheManager) :
  (get_cached_lookup R phone self).1
  = if negb (truthy (VStr (normalize_phone R phone))) then None
    else entry ← lookups (cache_data self) !! normalize_phone R phone;
         Some (get_or k_reverse_phone (VDict []) entry,
               get_or k_reverse_address (VDict []) entry,
               get_or k_ai_analysis (VDict []) entry).
Proof.
  unfold get_cached_lookup.
  destruct (negb (truthy (VStr (normalize_phone R phone)))); [reflexivity|].
  destruct (lookups (cache_data self) !! normalize_phone R phone); reflexivity.
Qed.

Lemma save_cache_lookups (io : io_outcome) (now : str) (self : CacheManager) :
  lookups (cache_data (save_cache io now self).2) = lookups (cache_data self).
Proof. reflexivity. Qed.

Lemma store_lookup_lookups io now now' phone A B ai self :
  lookups (cache_data (store_lookup R io now now' phone A B ai self).2)
  = lookups (cache_data self)
    \/ exists entry,
      normalize_phone R phone <> [] /\
      lookups (cache_data (store_lookup R io now now' phone A B ai self).2)
      = <[normalize_phone R phone := entry]> (lookups (cache_data self)).
Proof.
  destruct (decide (normalize_phone R phone = [])) as [Hkey|Hkey].
  - left. rewrite store_lookup_rejects_empty_key by exact Hkey. reflexivity.
  - destruct (truthy A || truthy B) eqn:Hdata.
    + right. rewrite store_lookup_accepts by assumption.
      eexists. split; [exact Hkey|]. reflexivity.
    + left. apply orb_false_iff in Hdata as [HA HB].
      rewrite store_lookup_rejects_no_data by assumption. reflexivity.
Qed.
End CacheMoreFacts.

(** The analysis of an entry can be replaced without touching its raw
    documents: if a lookup of [phone] answers [(A, B, old)], then after
    [update_ai_analysis phone ai] it answers [(A, B, ai)], with [ai]
    exactly as given (also when it is falsy), whatever the outcome of
    the write. *)
Theorem update_ai_analysis_then_get (R : PyRuntime) (io : io_outcome)
        (now now' : str) (phone : str) (ai A B old : value)
        (self : CacheManager) :
  (get_cached_lookup R phone self).1 = Some (A, B, old) ->
  (get_cached_lookup R phone
     (update_ai_analysis R io now now' phone ai self).2).1
  = Some (A, B, ai).
Proof.
  rewrite !get_cached_lookup_answer. unfold update_ai_analysis.
  destruct (negb (truthy (VStr (normalize_phone R phone)))); [discriminate|].
  destruct (lookups (cache_data self) !! normalize_phone R phone)
    as [entry|] eqn:Hentry; [|discriminate].
  cbn [mbind option_bind]. intros [= <- <- _].
  rewrite save_cache_lookups. unfold set_lookups. cbn [cache_data lookups].
  rewrite lookup_insert_eq. cbn [mbind option_bind].
  unfold get_or.
  rewrite !dict_get_set_ne by reflexivity.
  rewrite dict_get_set_eq. reflexivity.
Qed.

(** Stored under "(415) 555-1234" with an old analysis, read back under
    the same phone after the update. *)
Lemma update_ai_analysis_then_get_witness :
  (get_cached_lookup py_ascii (ustr "(415) 555-1234")
     (update_ai_analysis py_ascii IoOk (ustr "t2") (ustr "t3")
        (ustr "(415) 555-1234") (VDict [(ustr "rank", VInt 1)])
        (store_lookup py_ascii IoOk (ustr "t0") (ustr "t1")
           (ustr "(415) 555-1234")
           (VDict [(ustr "id", VStr (ustr "test1"))]) (VDict [])
           (VDict [(ustr "rank", VInt 2)]) empty_cache).2).2).1
  = Some (VDict [(ustr "id", VStr (ustr "test1"))], VDict [],
          VDict [(ustr "rank", VInt 1)]).
Proof.
  apply (update_ai_analysis_then_get py_ascii IoOk (ustr "t2") (ustr "t3")
           (ustr "(415) 555-1234") (VDict [(ustr "rank", VInt 1)])
           (VDict [(ustr "id", VStr (ustr "test1"))]) (VDict [])
           (VDict [(ustr "rank", VInt 2)])).
  apply (get_after_store py_ascii IoOk (ustr "t0") (ustr "t1")
           (ustr "(415) 555-1234")
           (VDict [(ustr "id", VStr (ustr "test1"))]) (VDict [])
           (VDict [(ustr "rank", VInt 2)]) empty_cache).
  - vm_compute. discriminate.
  - reflexivity.
Defined.

(** [update_ai_analysis] never creates an entry: when a lookup of
    [phone] misses (empty key or no entry), it returns [False] and
    leaves the manager, memory and file, as it was. *)
Theorem update_ai_analysis_needs_entry (R : PyRuntime) (io : io_outcome)
        (now now' : str) (phone : str) (ai : value) (self : CacheManager) :
  (get_cached_lookup R phone self).1 = None ->
  update_ai_analysis R io now now' phone ai self = (false, self).
Proof.
  rewrite get_cached_lookup_answer. unfold update_ai_analysis.
  destruct (negb (truthy (VStr (normalize_phone R phone)))); [reflexivity|].
  destruct (lookups (cache_data self) !! normalize_phone R phone);
    [discriminate|reflexivity].
Qed.

(** No entry for the phone in an empty cache. *)
Lemma update_ai_analysis_needs_entry_witness :
  update_ai_analysis py_ascii IoOk (ustr "t0") (ustr "t1")
    (ustr "+14155551234") (VDict [(ustr "rank", VInt 1)]) empty_cache
  = (false, empty_cache).
Proof.
  apply (update_ai_analysis_needs_entry py_ascii IoOk (ustr "t0") (ustr "t1")
           (ustr "+14155551234") (VDict [(ustr "rank", VInt 1)]) empty_cache).
  reflexivity.
Defined.

(** [clear_cache] returns the number of entries it found and whether
    the write went through; afterwards every lookup misses, also when
    the write failed. *)
Theorem clear_cache_empties (R : PyRuntime) (io : io_outcome)
        (now now' : str) (self : CacheManager) (phone : str) :
  (clear_cache io now now' self).1
  = (size (lookups (cache_data self)),
     match io with IoOk => true | _ => false end)
  /\ (get_cached_lookup R phone (clear_cache io now now' self).2).1 = None.
Proof.
  split; [reflexivity|].
  rewrite get_cached_lookup_answer.
  destruct (negb (truthy (VStr (normalize_phone R phone)))); [reflexivity|].
  unfold clear_cache. cbn [snd]. rewrite save_cache_lookups.
  cbn [cache_data lookups]. rewrite lookup_empty. reflexivity.
Qed.

(** Keys are compared after normalization: a lookup under any phone
    text with the same normal form finds what [store_lookup] has just
    stored. *)
Theorem store_then_get_same_normal_form (R : PyRuntime) (io : io_outcome)
        (now now' : str) (phone phone' : str) (A B : value)
        (self : CacheManager) :
  normalize_phone R phone' = normalize_phone R phone ->
  normalize_phone R phone <> [] ->
  truthy A || truthy B = true ->
  (get_cached_lookup R phone'
     (store_lookup R io now now' phone A B VNone self).2).1
  = Some (A, B, VDict []).
Proof.
  intros Hsame Hkey Hdata.
  rewrite get_cached_lookup_answer, Hsame.
  rewrite <- get_cached_lookup_answer.
  apply (get_after_store R io now now' phone A B VNone self Hkey Hdata).
Qed.

(** Stored under "(415) 555-1234", found under "+1-415-555-1234". *)
Lemma store_then_get_same_normal_form_witness :
  (get_cached_lookup py_ascii (ustr "+1-415-555-1234")
     (store_lookup py_ascii IoOk (ustr "t0") (ustr "t1")
        (ustr "(415) 555-1234")
        (VDict [(ustr "id", VStr (ustr "test1"))]) (VDict []) VNone
        empty_cache).2).1
  = Some (VDict [(ustr "id", VStr (ustr "test1"))], VDict [], VDict []).
Proof.
  apply (store_then_get_same_normal_form py_ascii IoOk (ustr "t0")
           (ustr "t1") (ustr "(415) 555-1234") (ustr "+1-415-555-1234")
           (VDict [(ustr "id", VStr (ustr "test1"))]) (VDict []) empty_cache).
  - vm_compute. reflexivity.
  - vm_compute. discriminate.
  - reflexivity.
Defined.

(** [store_lookup] touches one key only: a lookup under a phone with
    another normal form answers as before. *)
Theorem store_lookup_other_keys (R : PyRuntime) (io : io_outcome)
        (now now' : str) (phone phone' : str) (A B ai : value)
        (self : CacheManager) :
  normalize_phone R phone' <> normalize_phone R phone ->
  (get_cached_lookup R phone'
     (store_lookup R io now now' phone A B ai self).2).1
  = (get_cached_lookup R phone' self).1.
Proof.
  intros Hother. rewrite !get_cached_lookup_answer.
  destruct (store_lookup_lookups R io now now' phone A B ai self)
    as [->|(entry & _ & ->)]; [reflexivity|].
  rewrite lookup_insert_ne by congruence. reflexivity.
Qed.

(** Two different numbers. *)
Lemma store_lookup_other_keys_witness :
  (get_cached_lookup py_ascii (ustr "+14155550000")
     (store_lookup py_ascii IoOk (ustr "t0") (ustr "t1")
        (ustr "+14155551234")
        (VDict [(ustr "id", VStr (ustr "test1"))]) (VDict []) VNone
        empty_cache).2).1
  = (get_cached_lookup py_ascii (ustr "+14155550000") empty_cache).1.
Proof.
  apply (store_lookup_other_keys py_ascii IoOk (ustr "t0") (ustr "t1")
           (ustr "+14155551234") (ustr "+14155550000")
           (VDict [(ustr "id", VStr (ustr "test1"))]) (VDict []) VNone
           empty_cache).
  vm_compute. discriminate.
Defined.

Lemma store_lookup_file (R : PyRuntime) (io : io_outcome)
      (now now' : str) (phone : str) (A B ai : value)
      (self : CacheManager) :
  (store_lookup R io now now' phone A B ai self).1 = true ->
  let self' := (store_lookup R io now now' phone A B ai self).2 in
  cache_file self' = Some (cache_data self')
  /\ is_Some (lookups (cache_data self') !! normalize_phone R phone).
Proof.
  destruct (decide (normalize_phone R phone = [])) as [Hkey|Hkey].
  { rewrite store_lookup_rejects_empty_key by exact Hkey. discriminate. }
  destruct (truthy A || truthy B) eqn:Hdata.
  2:{ apply orb_false_iff in Hdata as [HA HB].
      rewrite store_lookup_rejects_no_data by assumption. discriminate. }
  rewrite store_lookup_accepts by assumption.
  destruct io; try discriminate. intros _. cbv zeta. split; [reflexivity|].
  cbn [save_cache snd cache_data lookups set_lookups].
  rewrite lookup_insert_eq. eauto.
Qed.

(** Write-through: when [store_lookup] returns [True], the cache file
    holds exactly the document that is in memory, and that document has
    an entry under the normalized phone. *)
Theorem store_lookup_writes_through (R : PyRuntime) (io : io_outcome)
        (now now' : str) (phone : str) (A B ai : value)
        (self : CacheManager) :
  (store_lookup R io now now' phone A B ai self).1 = true ->
  let self' := (store_lookup R io now now' phone A B ai self).2 in
  cache_file self' = Some (cache_data self')
  /\ is_Some (lookups (cache_data self') !! normalize_phone R phone).
Proof. apply store_lookup_file. Qed.

(** The sample entry, written with success. *)
Lemma store_lookup_writes_through_witness :
  let self' :=
    (store_lookup py_ascii IoOk (ustr "t0") (ustr "t1") (ustr "+14155551234")
       (VDict [(ustr "id", VStr (ustr "test1"))]) (VDict []) VNone
       empty_cache).2 in
  cache_file self' = Some (cache_data self')
  /\ is_Some (lookups (cache_data self')
                !! normalize_phone py_ascii (ustr "+14155551234")).
Proof.
  apply (store_lookup_writes_through py_ascii IoOk (ustr "t0") (ustr "t1")
           (ustr "+14155551234")
           (VDict [(ustr "id", VStr (ustr "test1"))]) (VDict []) VNone
           empty_cache).
  vm_compute. reflexivity.
Defined.

(** Across sessions: what [store_lookup] stored with success is found
    by a manager that is created later on the file it wrote. *)
Theorem stored_lookup_survives_restart (R : PyRuntime) (io io' : io_outcome)
        (now now' now2 now3 : str) (phone : str) (A B : value)
        (self : CacheManager) :
  (store_lookup R io now now' phone A B VNone self).1 = true ->
  let self' := (store_lookup R io now now' phone A B VNone self).2 in
  (get_cached_lookup R phone
     (new_cache_manager (cache_file self') (read_back self') io' now2 now3)).1
  = Some (A, B, VDict []).
Proof.
  intros Hstored self'.
  destruct (store_lookup_file R io now now' phone A B VNone self
              Hstored) as [Hfile _].
  fold self' in Hfile.
  assert (Hget : (get_cached_lookup R phone self').1 = Some (A, B, VDict [])).
  { destruct (decide (normalize_phone R phone = [])) as [Hkey|Hkey].
    { rewrite store_lookup_rejects_empty_key in Hstored by exact Hkey.
      discriminate. }
    destruct (truthy A || truthy B) eqn:Hdata.
    2:{ apply orb_false_iff in Hdata as [HA HB].
        rewrite store_lookup_rejects_no_data in Hstored by assumption.
        discriminate. }
    apply (get_after_store R io now now' phone A B VNone self Hkey Hdata). }
  rewrite get_cached_lookup_answer in Hget |- *.
  unfold new_cache_manager, read_back. rewrite Hfile. exact Hget.
Qed.

(** The sample entry, read by a second manager. *)
Lemma stored_lookup_survives_restart_witness :
  let self' :=
    (store_lookup py_ascii IoOk (ustr "t0") (ustr "t1") (ustr "+14155551234")
       (VDict [(ustr "id", VStr (ustr "test1"))]) (VDict []) VNone
       empty_cache).2 in
  (get_cached_lookup py_ascii (ustr "+14155551234")
     (new_cache_manager (cache_file self') (read_back self') IoOk
                        (ustr "t2") (ustr "t3"))).1
  = Some (VDict [(ustr "id", VStr (ustr "test1"))], VDict [], VDict []).
Proof.
  apply (stored_lookup_survives_restart py_ascii IoOk IoOk (ustr "t0")
           (ustr "t1") (ustr "t2") (ustr "t3") (ustr "+14155551234")
           (VDict [(ustr "id", VStr (ustr "test1"))]) (VDict []) empty_cache).
  vm_compute. reflexivity.
Defined.

(** A manager created on a file that is missing, is not JSON, is JSON
    but not a dict with a [lookups] key, or cannot be opened or read,
    starts empty.  In the first three cases the file is overwritten by
    the empty document when the write succeeds, whatever it held; when
    it cannot be opened or read it is left as it is.  (A dict whose
    [lookups] value is not a dict of entries is none of these cases.) *)
Theorem new_cache_manager_without_document (R : PyRuntime)
        (file : option CacheData) (rd : read_outcome) (io : io_outcome)
        (now now' : str) (phone : str) :
  (forall data, rd <> ReadDocument data) ->
  let self := new_cache_manager file rd io now now' in
  (get_cached_lookup R phone self).1 = None
  /\ (rd = ReadFails -> cache_file self = file)
  /\ (rd <> ReadFails -> io = IoOk ->
      cache_file self = Some (mkCacheData (VStr (ustr "1.0")) now' ∅)).
Proof.
  intros Hrd self. split; [|split].
  - rewrite get_cached_lookup_answer.
    destruct (negb (truthy (VStr (normalize_phone R phone))));
      [reflexivity|].
    subst self. destruct rd; try reflexivity. exfalso. eapply Hrd; eauto.
  - intros ->. reflexivity.
  - intros Hfails ->. subst self.
    destruct rd; try reflexivity; [congruence|].
    exfalso. eapply Hrd; eauto.
Qed.

(** A file that is not JSON. *)
Lemma new_cache_manager_without_document_witness :
  let self :=
    new_cache_manager (Some (mkCacheData (VStr (ustr "1.0")) (ustr "t0") ∅))
                      ReadUndecodable IoOk (ustr "t1") (ustr "t2") in
  (get_cached_lookup py_ascii (ustr "+14155551234") self).1 = None
  /\ (ReadUndecodable = ReadFails ->
      cache_file self
      = Some (mkCacheData (VStr (ustr "1.0")) (ustr "t0") ∅))
  /\ (ReadUndecodable <> ReadFails -> IoOk = IoOk ->
      cache_file self = Some (mkCacheData (VStr (ustr "1.0")) (ustr "t2") ∅)).
Proof.
  apply (new_cache_manager_without_document py_ascii
           (Some (mkCacheData (VStr (ustr "1.0")) (ustr "t0") ∅))
           ReadUndecodable IoOk (ustr "t1") (ustr "t2") (ustr "+14155551234")).
  intros data. discriminate.
Defined.



(** ** The two phone normalizers *)

Section CleanPhoneFacts.
Variable R : PyRuntime.

Let kept (c : char) : bool := negb (not_digit_or_plus R c).

Lemma clean_phone_unfold (phone : value) :
  clean_phone R phone
  = if pd_isna phone then []
    else with_prefix (List.filter kept (strip R (to_str R phone))).
Proof.
  unfold clean_phone, with_prefix. rewrite sub_class_filter.
  destruct (pd_isna phone); [reflexivity|].
  fold kept. set (s := List.filter kept (strip R (to_str R phone))).
  destruct (startswith (ustr "+") s); [reflexivity|]. cbn [negb].
  destruct (startswith (ustr "1") s); cbn [andb negb];
    destruct (length s =? 11); cbn [andb]; try reflexivity;
    destruct (length s =? 10); reflexivity.
Qed.

Lemma normalize_with_prefix (s : str) :
  List.forallb kept s = true ->
  normalize_phone R (with_prefix s) = with_prefix s.
Proof.
  intros Hs. rewrite normalize_phone_unfold.
  destruct (truthy (VStr (with_prefix s))) eqn:Hy; cbn [negb].
  - rewrite filter_fixed.
    + apply with_prefix_idem.
    + apply with_prefix_keeps, Hs.
  - apply truthy_VStr in Hy. symmetry. exact Hy.
Qed.

Lemma normalize_phone_kept (x : str) :
  List.forallb kept (normalize_phone R x) = true.
Proof.
  rewrite normalize_phone_unfold.
  destruct (negb (truthy (VStr x))); [reflexivity|].
  apply with_prefix_keeps, forallb_filter.
Qed.

Lemma normalize_phone_of_filter (x : str) :
  normalize_phone R x = with_prefix (List.filter kept x).
Proof.
  rewrite normalize_phone_unfold.
  destruct (truthy (VStr x)) eqn:Hx; cbn [negb]; [reflexivity|].
  apply truthy_VStr in Hx as ->. reflexivity.
Qed.
End CleanPhoneFacts.

(** The phone that [clean_phone] returns is already a cache key:
    [normalize_phone] leaves it as it is, for every cell value (text,
    number, missing). *)
Theorem normalize_phone_of_clean_phone (R : PyRuntime) (phone : value) :
  normalize_phone R (clean_phone R phone) = clean_phone R phone.
Proof.
  rewrite clean_phone_unfold. destruct (pd_isna phone); [reflexivity|].
  apply normalize_with_prefix, forallb_filter.
Qed.

(** On text the two normalizers agree up to the trimming that
    [clean_phone] does first. *)
Theorem clean_phone_is_normalize_phone (R : PyRuntime) (s : str) :
  clean_phone R (VStr s) = normalize_phone R (strip R s).
Proof.
  rewrite clean_phone_unfold, normalize_phone_of_filter. reflexivity.
Qed.

(** The key [normalize_phone] returns holds only decimal digits and plus
    signs, and depends only on the digits and plus signs of the text:
    two texts that agree on them get the same key. *)
Theorem normalize_phone_reads_digits_and_plus (R : PyRuntime) (x y : str) :
  Forall (fun c => isdecimal R c = true \/ c = ch "+"%char)
         (normalize_phone R x)
  /\ (List.filter (fun c => isdecimal R c || (c =? ch "+"%char)%N) x
      = List.filter (fun c => isdecimal R c || (c =? ch "+"%char)%N) y ->
      normalize_phone R x = normalize_phone R y).
Proof.
  split.
  - pose proof (normalize_phone_kept R x) as H.
    rewrite List.forallb_forall in H. apply Forall_forall. intros c Hc.
    apply list_elem_of_In, H in Hc. unfold not_digit_or_plus in Hc.
    rewrite negb_involutive in Hc. apply orb_true_iff in Hc as [Hd|Hp];
      [left; exact Hd|right; apply N.eqb_eq, Hp].
  - intros Hsame. rewrite !normalize_phone_of_filter.
    assert (Hf : forall z, List.filter (fun c => negb (not_digit_or_plus R c)) z
                 = List.filter (fun c => isdecimal R c || (c =? ch "+"%char)%N) z).
    { intros z. apply List.filter_ext. intros c. unfold not_digit_or_plus.
      apply negb_involutive. }
    rewrite !Hf, Hsame. reflexivity.
Qed.

(** Two ways of writing one number. *)
Lemma normalize_phone_reads_digits_and_plus_witness :
  Forall (fun c => isdecimal py_ascii c = true \/ c = ch "+"%char)
         (normalize_phone py_ascii (ustr "(415) 555-1234"))
  /\ (List.filter (fun c => isdecimal py_ascii c || (c =? ch "+"%char)%N)
        (ustr "(415) 555-1234")
      = List.filter (fun c => isdecimal py_ascii c || (c =? ch "+"%char)%N)
          (ustr "415.555.1234") ->
      normalize_phone py_ascii (ustr "(415) 555-1234")
      = normalize_phone py_ascii (ustr "415.555.1234")).
Proof.
  exact (normalize_phone_reads_digits_and_plus py_ascii
           (ustr "(415) 555-1234") (ustr "415.555.1234")).
Defined.

(** ** html_escape *)

Lemma replace_char_app (c : char) (new a b : str) :
  replace_char c new (a ++ b) = replace_char c new a ++ replace_char c new b.
Proof. apply List.flat_map_app. Qed.

Lemma replace_chain_single (d : char) :
  replace_char c_apos (ustr "&#39;")
    (replace_char c_quot (ustr "&quot;")
       (replace_char c_gt (ustr "&gt;")
          (replace_char c_lt (ustr "&lt;")
             (replace_char c_amp (ustr "&amp;") [d]))))
  = html_entity d.
Proof.
  unfold html_entity.
  destruct (N.eqb_spec d c_amp) as [->|Hamp]; [reflexivity|].
  destruct (N.eqb_spec d c_lt) as [->|Hlt]; [reflexivity|].
  destruct (N.eqb_spec d c_gt) as [->|Hgt]; [reflexivity|].
  destruct (N.eqb_spec d c_quot) as [->|Hquot]; [reflexivity|].
  destruct (N.eqb_spec d c_apos) as [->|Hapos]; [reflexivity|].
  unfold replace_char. cbn [List.flat_map app].
  repeat (match goal with
          | |- context [(d =? ?c)%N] =>
              destruct (N.eqb_spec d c); [contradiction|]
          end; cbn [List.flat_map app]).
  reflexivity.
Qed.

Lemma html_escape_entities (R : PyRuntime) (text : value) :
  html_escape R text
  = if truthy text then List.flat_map html_entity (to_str R text) else [].
Proof.
  unfold html_escape. destruct (truthy text); [|reflexivity]. cbn [negb].
  induction (to_str R text) as [|d s IH]; [reflexivity|].
  change (d :: s) with ([d] ++ s).
  rewrite !replace_char_app, IH, replace_chain_single. reflexivity.
Qed.

(** The five replacements in a row amount to one pass that writes each
    special character as its entity: the ampersands of the entities
    written for the other four are not escaped again. *)
Theorem html_escape_is_one_pass (R : PyRuntime) (text : value) :
  html_escape R text
  = if truthy text then List.flat_map html_entity (to_str R text) else [].
Proof. apply html_escape_entities. Qed.

(** The escaped text holds no less-than, greater-than, double quote or
    apostrophe, whatever the input. *)
Theorem html_escape_has_no_markup (R : PyRuntime) (text : value) :
  Forall (fun c => c <> c_lt /\ c <> c_gt /\ c <> c_quot /\ c <> c_apos)
         (html_escape R text).
Proof.
  rewrite html_escape_entities.
  destruct (truthy text); [|constructor].
  apply Forall_forall. intros c Hc. apply list_elem_of_In in Hc.
  apply List.in_flat_map in Hc as (d & _ & Hc).
  unfold html_entity in Hc.
  repeat (match type of Hc with
          | In _ (if (d =? ?k)%N then _ else _) =>
              destruct (N.eqb_spec d k)
          end;
          [ cbn in Hc; unfold c_lt, c_gt, c_quot, c_apos;
            repeat (destruct Hc as [<-|Hc]; [repeat split; discriminate|]);
            contradiction | ]).
  cbn in Hc. destruct Hc as [<-|[]]. auto.
Qed.

(** ** More on the extractor and the accumulators *)

Lemma append_new_deduplicated (l : list value) (x : value) :
  deduplicated l -> deduplicated (append_new l x).
Proof.
  intros Hl. unfold append_new. destruct (py_in x l) eqn:E; [exact Hl|].
  constructor; assumption.
Qed.

Lemma foldl_append_new_deduplicated (xs l : list value) :
  deduplicated l -> deduplicated (foldl append_new l xs).
Proof.
  revert l. induction xs as [|x xs IH]; intros l Hl; simpl; [exact Hl|].
  apply IH, append_new_deduplicated, Hl.
Qed.

Lemma str_in_spec (x : str) (l : list str) : str_in x l = true <-> x ∈ l.
Proof.
  unfold str_in. rewrite List.existsb_exists. split.
  - intros (y & Hy & Heq). apply str_eqb_eq in Heq as ->.
    apply list_elem_of_In, Hy.
  - intros Hx. exists x. split; [apply list_elem_of_In, Hx|apply str_eqb_refl].
Qed.

Lemma append_new_str_NoDup (l : list str) (x : str) :
  NoDup l -> NoDup (append_new_str l x).
Proof.
  intros Hl. unfold append_new_str. destruct (str_in x l) eqn:E; [exact Hl|].
  apply NoDup_app. split; [exact Hl|]. split.
  - intros y Hy Hyx. apply list_elem_of_singleton in Hyx as ->.
    apply str_in_spec in Hy. congruence.
  - apply NoDup_singleton.
Qed.

Lemma foldl_append_new_str_NoDup (xs l : list str) :
  NoDup l -> NoDup (foldl append_new_str l xs).
Proof.
  revert l. induction xs as [|x xs IH]; intros l Hl; simpl; [exact Hl|].
  apply IH, append_new_str_NoDup, Hl.
Qed.

Lemma foldl_step_deduplicated (step : list value -> value -> list value)
      (items l : list value) :
  (forall acc e, step acc e = acc \/ exists x, step acc e = append_new acc x) ->
  deduplicated l -> deduplicated (foldl step l items).
Proof.
  intros Hstep. revert l. induction items as [|e items IH]; intros l Hl; simpl.
  - exact Hl.
  - apply IH. destruct (Hstep l e) as [->|(x & ->)];
      [exact Hl|apply append_new_deduplicated, Hl].
Qed.

Lemma person_phones_deduplicated (obj : list (str * value)) :
  deduplicated (person_phones obj).
Proof.
  unfold person_phones.
  assert (H : deduplicated
                (foldl phone_numbers_step
                   (foldl phones_step
                      (foldl alternate_phones_step []
                         (list_field k_alternate_phones obj))
                      (list_field k_phones obj))
                   (list_field k_phone_numbers obj))).
  { do 3 (apply foldl_step_deduplicated;
            [ intros acc e;
              unfold alternate_phones_step, phones_step, phone_numbers_step;
              destruct e; eauto;
              match goal with
              | |- context [if ?b then _ else _] => destruct b
              end; eauto | ]).
    apply deduplicated_nil. }
  destruct (truthy (get k_phone obj));
    [apply append_new_deduplicated|]; exact H.
Qed.

Lemma foldl_step_Forall (P : value -> Prop)
      (step : list value -> value -> list value) (items l : list value) :
  (forall acc e, step acc e = acc
                 \/ exists x, P x /\ step acc e = append_new acc x) ->
  Forall P l -> Forall P (foldl step l items).
Proof.
  intros Hstep. revert l. induction items as [|e items IH]; intros l Hl; simpl.
  - exact Hl.
  - apply IH. destruct (Hstep l e) as [->|(x & Hx & ->)]; [exact Hl|].
    unfold append_new. destruct (py_in x l); [exact Hl|].
    apply Forall_app. split; [exact Hl|]. constructor; [exact Hx|constructor].
Qed.

Lemma person_phones_truthy (obj : list (str * value)) :
  Forall (fun x => truthy x = true) (person_phones obj).
Proof.
  unfold person_phones.
  assert (H : Forall (fun x => truthy x = true)
                (foldl phone_numbers_step
                   (foldl phones_step
                      (foldl alternate_phones_step []
                         (list_field k_alternate_phones obj))
                      (list_field k_phones obj))
                   (list_field k_phone_numbers obj))).
  { do 3 (apply foldl_step_Forall;
            [ intros acc e;
              unfold alternate_phones_step, phones_step, phone_numbers_step;
              destruct e; eauto;
              match goal with
              | |- context [if ?b then _ else _] => destruct b eqn:?
              end; eauto | ]).
    constructor. }
  destruct (truthy (get k_phone obj)) eqn:E; [|exact H].
  unfold append_new. destruct (py_in _ _); [exact H|].
  apply Forall_app. split; [exact H|]. constructor; [exact E|constructor].
Qed.

Section DedupFacts.
Variable R : PyRuntime.

Lemma addresses_loop_inv (items : list value) (acc out : list str) :
  addresses_loop acc items = Ok out ->
  NoDup acc -> Forall (fun a => a <> []) acc ->
  NoDup out /\ Forall (fun a => a <> []) out.
Proof.
  revert acc. induction items as [|item items IH]; intros acc H Hnd Hne.
  - injection H as <-. auto.
  - cbn [addresses_loop] in H.
    destruct item as [ | | | | | |addr]; try (apply (IH acc); assumption).
    destruct (format_address addr) as [formatted|]; [|discriminate].
    cbn [mbind option_bind] in H. eapply IH; [exact H| |].
    + destruct (truthy (VStr formatted)); [|exact Hnd].
      apply append_new_str_NoDup, Hnd.
    + destruct (truthy (VStr formatted)) eqn:E; [|exact Hne].
      unfold append_new_str. destruct (str_in formatted acc); [exact Hne|].
      apply Forall_app. split; [exact Hne|]. constructor; [|constructor].
      intros ->. discriminate.
Qed.

Lemma person_at_lists (obj : list (str * value)) (ps : list PersonInfo)
      (p : PersonInfo) :
  person_at R obj = Ok ps -> p ∈ ps ->
  pi_phones p = person_phones obj /\
  NoDup (pi_addresses p) /\ Forall (fun a => a <> []) (pi_addresses p).
Proof.
  unfold person_at.
  destruct (truthy (get k_name obj) || truthy (get k_firstname obj)
            || truthy (get k_lastname obj));
    [|intros [= <-] Hp; inversion Hp].
  destruct (truthy (person_name R obj)); [|intros [= <-] Hp; inversion Hp].
  intros H Hp.
  destruct (addresses_loop [] (list_field k_current_addresses obj))
    as [a1|] eqn:E1; [|discriminate].
  cbn [mbind option_bind] in H.
  destruct (addresses_loop a1 (list_field k_historical_addresses obj))
    as [a2|] eqn:E2; [|discriminate].
  cbn [mbind option_bind] in H. injection H as <-.
  apply list_elem_of_singleton in Hp as ->. cbn [pi_phones pi_addresses].
  split; [reflexivity|].
  destruct (addresses_loop_inv _ _ _ E1 (NoDup_nil_2) (List.Forall_nil _))
    as [Hnd1 Hne1].
  apply (addresses_loop_inv _ _ _ E2 Hnd1 Hne1).
Qed.

Lemma people_of_deduplicated (data : value) (people : list PersonInfo) :
  people_of R data = Ok people ->
  Forall (fun p =>
            person_deduplicated p
            /\ Forall (fun x => truthy x = true) (pi_phones p)
            /\ Forall (fun a => a <> []) (pi_addresses p)) people.
Proof.
  unfold people_of. destruct (truthy data); [|intros [= <-]; constructor].
  rewrite extract_is_walk. intros Hwalk. apply Forall_forall. intros p Hp.
  destruct (walk_value_sound R data people p Hwalk Hp)
    as (obj & ps & _ & Hat & Hin).
  destruct (person_at_lists obj ps p Hat Hin) as (Hph & Hnd & Hne).
  unfold person_deduplicated. rewrite Hph.
  repeat split; auto using person_phones_deduplicated, person_phones_truthy.
Qed.
End DedupFacts.

(** The phones and addresses of every record the extractor emits are
    deduplicated: no phone equals an earlier one and every phone is
    truthy; no address occurs twice and none is empty. *)
Theorem extracted_records_are_deduplicated (R : PyRuntime) (data : value)
        (people : list PersonInfo) (p : PersonInfo) :
  extract_people_from_data R data = Ok people -> p ∈ people ->
  deduplicated (pi_phones p)
  /\ Forall (fun x => truthy x = true) (pi_phones p)
  /\ NoDup (pi_addresses p)
  /\ Forall (fun a => a <> []) (pi_addresses p).
Proof.
  rewrite extract_is_walk. intros Hwalk Hp.
  destruct (walk_value_sound R data people p Hwalk Hp)
    as (obj & ps & _ & Hat & Hin).
  destruct (person_at_lists R obj ps p Hat Hin) as (Hph & Hnd & Hne).
  rewrite Hph.
  repeat split; auto using person_phones_deduplicated, person_phones_truthy.
Qed.

(** Alice of the sample address document. *)
Lemma extracted_records_are_deduplicated_witness :
  deduplicated [VStr (ustr "+15125550100")]
  /\ Forall (fun x => truthy x = true) [VStr (ustr "+15125550100")]
  /\ NoDup ([] : list (list N))
  /\ Forall (fun a => a <> []) ([] : list (list N)).
Proof.
  apply (extracted_records_are_deduplicated py_ascii sample_address_data
           [mkPerson (VStr (ustr "Alice")) (VStr [])
                     [VStr (ustr "+15125550100")] []]
           (mkPerson (VStr (ustr "Alice")) (VStr [])
                     [VStr (ustr "+15125550100")] [])).
  - vm_compute. reflexivity.
  - apply list_elem_of_here.
Defined.

Lemma merge_found_deduplicated (found : list PersonInfo) (p : PersonInfo) :
  Forall person_deduplicated found -> person_deduplicated p ->
  Forall person_deduplicated (merge_found found p).
Proof.
  intros Hfound Hp. induction Hfound as [|q found Hq Hfound IH]; simpl.
  - constructor; auto.
  - destruct (py_eq (pi_name q) (pi_name p)); constructor; auto.
    destruct Hq as [Hph Had]. split; cbn [pi_phones pi_addresses].
    + apply foldl_append_new_deduplicated, Hph.
    + apply foldl_append_new_str_NoDup, Had.
Qed.

Lemma merge_found_distinct (found : list PersonInfo) (p : PersonInfo) :
  distinct_person_names found -> distinct_person_names (merge_found found p).
Proof.
  induction found as [|q found IH]; simpl.
  - intros _. split; [constructor|exact I].
  - intros [Hq Hfound].
    destruct (py_eq (pi_name q) (pi_name p)) eqn:E; simpl.
    + split; assumption.
    + split; [|apply IH, Hfound].
      apply (merge_found_names (fun v => py_eq (pi_name q) v = false));
        assumption.
Qed.

Lemma foldl_merge_found_wf (people found : list PersonInfo) :
  distinct_person_names found -> Forall person_deduplicated found ->
  Forall person_deduplicated people ->
  distinct_person_names (foldl merge_found found people)
  /\ Forall person_deduplicated (foldl merge_found found people).
Proof.
  intros Hd Hf Hpeople. revert found Hd Hf.
  induction Hpeople as [|p people Hp _ IH]; intros found Hd Hf; simpl.
  - auto.
  - apply IH; [apply merge_found_distinct, Hd|].
    apply merge_found_deduplicated; assumption.
Qed.

Lemma results_of_found_wf (R : PyRuntime) (person : list (str * value))
      (failed : bool) (found : list PersonInfo) :
  distinct_person_names found -> Forall person_deduplicated found ->
  distinct_names (map (result_of R person failed) found)
  /\ Forall row_deduplicated (map (result_of R person failed) found).
Proof.
  intros Hd Hf. split.
  - induction found as [|p found IH]; simpl; [exact I|].
    destruct Hd as [Hp Hd]. inversion Hf; subst. split; [|auto].
    apply Forall_fmap. exact Hp.
  - apply Forall_fmap. eapply Forall_impl; [exact Hf|]. auto.
Qed.

Lemma merge_result_deduplicated (R : PyRuntime) (b : bool)
      (person : list (str * value)) (rs : list LeadResult) (p : PersonInfo) :
  Forall row_deduplicated rs -> person_deduplicated p ->
  Forall row_deduplicated (merge_result R b person rs p).
Proof.
  intros Hrs Hp. induction Hrs as [|r rs Hr Hrs IH]; simpl.
  - constructor; auto.
  - destruct (py_eq (new_name r) (pi_name p)); constructor; auto.
    destruct Hr as [Hph Had]. split; cbn [new_phones new_addresses].
    + apply foldl_append_new_deduplicated, Hph.
    + apply foldl_append_new_str_NoDup, Had.
Qed.

Lemma merge_result_distinct (R : PyRuntime) (b : bool)
      (person : list (str * value)) (rs : list LeadResult) (p : PersonInfo) :
  distinct_names rs -> distinct_names (merge_result R b person rs p).
Proof.
  induction rs as [|r rs IH]; simpl.
  - intros _. split; [constructor|exact I].
  - intros [Hr Hrs].
    destruct (py_eq (new_name r) (pi_name p)) eqn:E; simpl.
    + split; assumption.
    + split; [|apply IH, Hrs].
      apply (merge_result_names (fun v => py_eq (new_name r) v = false));
        assumption.
Qed.

Lemma foldl_merge_result_wf (R : PyRuntime) (b : bool)
      (person : list (str * value)) (people : list PersonInfo)
      (rs : list LeadResult) :
  distinct_names rs -> Forall row_deduplicated rs ->
  Forall person_deduplicated people ->
  distinct_names (foldl (merge_result R b person) rs people)
  /\ Forall row_deduplicated (foldl (merge_result R b person) rs people).
Proof.
  intros Hd Hf Hpeople. revert rs Hd Hf.
  induction Hpeople as [|p people Hp _ IH]; intros rs Hd Hf; simpl.
  - auto.
  - apply IH; [apply merge_result_distinct, Hd|].
    apply merge_result_deduplicated; assumption.
Qed.

Section WellFormedLists.
Variable R : PyRuntime.

Lemma people_of_person_deduplicated (data : value) (people : list PersonInfo) :
  people_of R data = Ok people -> Forall person_deduplicated people.
Proof.
  intros H. eapply Forall_impl; [apply (people_of_deduplicated R data), H|].
  intros p [Hp _]. exact Hp.
Qed.

Lemma process_lookup_data_wf person phone_data address_data rs :
  process_lookup_data R person phone_data address_data = Ok rs ->
  distinct_names rs /\ Forall row_deduplicated rs.
Proof.
  intros H.
  destruct (process_lookup_data_inv R _ _ _ _ H)
    as (failed & pp & ap & _ & Hpp & Hap & Hrs).
  cbv zeta in Hrs.
  destruct (foldl_merge_found_wf pp [] I (List.Forall_nil _)
              (people_of_person_deduplicated _ _ Hpp)) as [Hd1 Hf1].
  destruct (foldl_merge_found_wf ap _ Hd1 Hf1
              (people_of_person_deduplicated _ _ Hap)) as [Hd Hf].
  destruct (foldl merge_found (foldl merge_found [] pp) ap) as [|q found].
  - subst rs. split; [split; [constructor|exact I]|].
    constructor; [|constructor]. split; [constructor|apply NoDup_nil_2].
  - subst rs. apply results_of_found_wf; assumption.
Qed.

Lemma accumulate_wf (b : bool) data person cur rs :
  distinct_names cur -> Forall row_deduplicated cur ->
  (if b then accumulate_address_results R data person cur
   else accumulate_phone_results R data person cur) = Ok rs ->
  distinct_names rs /\ Forall row_deduplicated rs.
Proof.
  intros Hd Hf H. destruct (starts_fresh cur) eqn:Hfresh.
  - destruct b; unfold accumulate_address_results, accumulate_phone_results in H;
      rewrite Hfresh in H; eapply process_lookup_data_wf; exact H.
  - assert (Hfold : exists people, people_of R data = Ok people /\
                      rs = foldl (merge_result R b person) cur people).
    { destruct b; unfold accumulate_address_results, accumulate_phone_results in H;
        rewrite Hfresh in H; inv_bind H; eauto. }
    destruct Hfold as (people & Hpeople & ->).
    apply foldl_merge_result_wf; try assumption.
    apply (people_of_person_deduplicated data), Hpeople.
Qed.

Lemma reachable_wf (l : list LeadResult) :
  reachable R (fun _ => True) l ->
  distinct_names l /\ Forall row_deduplicated l.
Proof.
  induction 1 as [ | person pd ad rs _ _ H
                   | pd person cur rs _ _ IH H
                   | ad person cur rs _ _ IH H ].
  - split; [exact I|constructor].
  - exact (process_lookup_data_wf _ _ _ _ H).
  - destruct IH as [Hd Hf]. exact (accumulate_wf false pd person cur rs Hd Hf H).
  - destruct IH as [Hd Hf]. exact (accumulate_wf true ad person cur rs Hd Hf H).
Qed.
End WellFormedLists.

(** One row per name: in every list that [process_lookup_data] and the
    two accumulators can produce, whatever documents they are fed, no
    result bears a name equal to that of an earlier result. *)
Theorem reachable_lists_have_one_row_per_name (R : PyRuntime)
        (l : list LeadResult) :
  reachable R (fun _ => True) l -> distinct_names l.
Proof. intros H. apply (reachable_wf R l H). Qed.

(** The list after the sample phone pass and the sample address pass. *)
Lemma reachable_lists_have_one_row_per_name_witness :
  distinct_names
    [sample_result "Alice" [VStr (ustr "+15125550100")] false;
     sample_result "Bob" [] true].
Proof.
  apply (reachable_lists_have_one_row_per_name py_ascii).
  apply (reach_address py_ascii _ sample_address_data sample_contact
           [sample_result "Alice" [] true; sample_result "Bob" [] true]);
    [exact I | | vm_compute; reflexivity].
  apply (reach_phone py_ascii _ sample_phone_data sample_contact []);
    [exact I | apply reach_init | vm_compute; reflexivity].
Defined.

(** In every such list the phones of a row are deduplicated (no phone
    equals an earlier one of the row) and no address occurs twice in a
    row, also after any number of merges. *)
Theorem reachable_rows_are_deduplicated (R : PyRuntime)
        (l : list LeadResult) (r : LeadResult) :
  reachable R (fun _ => True) l -> r ∈ l ->
  deduplicated (new_phones r) /\ NoDup (new_addresses r).
Proof.
  intros H Hr. destruct (reachable_wf R l H) as [_ Hf].
  rewrite Forall_forall in Hf. apply (Hf r Hr).
Qed.

(** Alice's row after the two sample passes. *)
Lemma reachable_rows_are_deduplicated_witness :
  deduplicated
    (new_phones (sample_result "Alice" [VStr (ustr "+15125550100")] false))
  /\ NoDup
       (new_addresses
          (sample_result "Alice" [VStr (ustr "+15125550100")] false)).
Proof.
  apply (reachable_rows_are_deduplicated py_ascii
           [sample_result "Alice" [VStr (ustr "+15125550100")] false;
            sample_result "Bob" [] true]).
  - apply (reach_address py_ascii _ sample_address_data sample_contact
             [sample_result "Alice" [] true; sample_result "Bob" [] true]);
      [exact I | | vm_compute; reflexivity].
    apply (reach_phone py_ascii _ sample_phone_data sample_contact []);
      [exact I | apply reach_init | vm_compute; reflexivity].
  - apply list_elem_of_here.
Defined.

(** ** The accumulators: rows are kept, incoming people are covered *)

Lemma append_new_prefix (l : list value) (x : value) :
  l `prefix_of` append_new l x.
Proof.
  unfold append_new. destruct (py_in x l); [reflexivity|].
  apply prefix_app_r. reflexivity.
Qed.

Lemma foldl_append_new_prefix (xs l : list value) :
  l `prefix_of` foldl append_new l xs.
Proof.
  revert l. induction xs as [|x xs IH]; intros l; simpl; [reflexivity|].
  etransitivity; [apply append_new_prefix|apply IH].
Qed.

Lemma append_new_str_prefix (l : list str) (x : str) :
  l `prefix_of` append_new_str l x.
Proof.
  unfold append_new_str. destruct (str_in x l); [reflexivity|].
  apply prefix_app_r. reflexivity.
Qed.

Lemma foldl_append_new_str_prefix (xs l : list str) :
  l `prefix_of` foldl append_new_str l xs.
Proof.
  revert l. induction xs as [|x xs IH]; intros l; simpl; [reflexivity|].
  etransitivity; [apply append_new_str_prefix|apply IH].
Qed.

Lemma listed_mono (x : value) (l l' : list value) :
  listed x l -> l `prefix_of` l' -> listed x l'.
Proof.
  intros H [k ->]. destruct H as [H|H].
  - left. apply elem_of_app. left. exact H.
  - right. unfold py_in in *. rewrite List.existsb_app, H. reflexivity.
Qed.

Lemma foldl_append_new_listed (xs l : list value) (x : value) :
  x ∈ xs -> listed x (foldl append_new l xs).
Proof.
  revert l. induction xs as [|y xs IH]; intros l Hx; simpl.
  - inversion Hx.
  - apply elem_of_cons in Hx as [->|Hx]; [|apply IH, Hx].
    apply (listed_mono _ (append_new l y)); [|apply foldl_append_new_prefix].
    unfold append_new. destruct (py_in y l) eqn:E; [right; exact E|].
    left. apply elem_of_app. right. apply list_elem_of_here.
Qed.

Lemma foldl_append_new_str_elem (xs l : list str) (x : str) :
  x ∈ xs -> x ∈ foldl append_new_str l xs.
Proof.
  revert l. induction xs as [|y xs IH]; intros l Hx; simpl.
  - inversion Hx.
  - apply elem_of_cons in Hx as [->|Hx]; [|apply IH, Hx].
    destruct (foldl_append_new_str_prefix xs (append_new_str l y)) as [k ->].
    apply elem_of_app. left.
    unfold append_new_str. destruct (str_in y l) eqn:E.
    + apply str_in_spec, E.
    + apply elem_of_app. right. apply list_elem_of_here.
Qed.

Lemma grows_refl (r : LeadResult) : grows r r.
Proof. unfold grows. repeat split; auto. Qed.

Lemma grows_trans (r1 r2 r3 : LeadResult) :
  grows r1 r2 -> grows r2 r3 -> grows r1 r3.
Proof.
  intros (A1 & A2 & A3 & A4 & A5 & A6 & A7 & A8 & A9 & A10 & A11)
         (B1 & B2 & B3 & B4 & B5 & B6 & B7 & B8 & B9 & B10 & B11).
  unfold grows. repeat split; try congruence.
  - etransitivity; eassumption.
  - etransitivity; eassumption.
  - intros H. rewrite B10; [auto|]. rewrite A10; auto.
  - auto.
Qed.

Lemma covers_mono (phones : list value) (addresses : list str)
      (r r' : LeadResult) :
  covers phones addresses r -> grows r r' -> covers phones addresses r'.
Proof.
  intros [Hp Ha] (_ & _ & _ & _ & _ & _ & _ & Hph & Had & _). split.
  - intros x Hx. eapply listed_mono; [apply Hp, Hx|exact Hph].
  - intros a Hx. destruct Had as [k ->]. apply elem_of_app. left. auto.
Qed.

Section MergeFacts.
Variable R : PyRuntime.
Variable from_address : bool.
Variable person : list (str * value).

Lemma merged_row_grows (r : LeadResult) (p : PersonInfo) :
  grows r
    (mkResult (original_address r) (original_phone r) (blank r)
       (if truthy (pi_age p) && negb (truthy (age r))
        then pi_age p else age r)
       (original_name r)
       (foldl append_new (new_phones r) (pi_phones p))
       (foldl append_new_str (new_addresses r) (pi_addresses p))
       (new_name r) (status r) (notes r)
       (if from_address then false else address_lookup_failed r)).
Proof.
  unfold grows. cbn. repeat split.
  - apply foldl_append_new_prefix.
  - apply foldl_append_new_str_prefix.
  - intros ->. rewrite andb_false_r. reflexivity.
  - intros ->. destruct from_address; reflexivity.
Qed.

Lemma merge_result_grows (rs : list LeadResult) (p : PersonInfo)
      (i : nat) (r : LeadResult) :
  rs !! i = Some r ->
  exists r', merge_result R from_address person rs p !! i = Some r'
             /\ grows r r'.
Proof.
  revert i. induction rs as [|r0 rs IH]; intros i Hi; [discriminate|].
  simpl. destruct (py_eq (new_name r0) (pi_name p)).
  - destruct i as [|i]; simpl in *.
    + injection Hi as <-. eexists. split; [reflexivity|apply merged_row_grows].
    + exists r. split; [exact Hi|apply grows_refl].
  - destruct i as [|i]; simpl in *.
    + exists r. split; [exact Hi|apply grows_refl].
    + apply IH, Hi.
Qed.

Lemma foldl_merge_result_grows (people : list PersonInfo)
      (rs : list LeadResult) (i : nat) (r : LeadResult) :
  rs !! i = Some r ->
  exists r', foldl (merge_result R from_address person) rs people !! i
             = Some r'
             /\ grows r r'.
Proof.
  revert rs r. induction people as [|p people IH]; intros rs r Hi; simpl.
  - exists r. split; [exact Hi|apply grows_refl].
  - destruct (merge_result_grows rs p i r Hi) as (r1 & H1 & G1).
    destruct (IH _ _ H1) as (r2 & H2 & G2).
    exists r2. split; [exact H2|]. eapply grows_trans; eassumption.
Qed.

Lemma merge_result_finds (rs : list LeadResult) (p : PersonInfo) :
  py_eq (pi_name p) (pi_name p) = true ->
  exists r,
    existing_result (pi_name p) (merge_result R from_address person rs p)
    = Some r
    /\ covers (pi_phones p) (pi_addresses p) r.
Proof.
  intros Hrefl. unfold existing_result.
  induction rs as [|r0 rs IH]; simpl.
  - rewrite Hrefl. eexists. split; [reflexivity|]. split; cbn.
    + intros x Hx. left. exact Hx.
    + auto.
  - destruct (py_eq (new_name r0) (pi_name p)) eqn:E; simpl.
    + rewrite E. eexists. split; [reflexivity|]. split; cbn.
      * intros x Hx. apply foldl_append_new_listed, Hx.
      * intros a Ha. apply foldl_append_new_str_elem, Ha.
    + rewrite E. exact IH.
Qed.

Lemma merge_result_keeps_found (rs : list LeadResult) (q : PersonInfo)
      (n : value) (r : LeadResult) :
  existing_result n rs = Some r ->
  exists r',
    existing_result n (merge_result R from_address person rs q) = Some r'
    /\ grows r r'.
Proof.
  unfold existing_result.
  induction rs as [|r0 rs IH]; simpl; [discriminate|].
  destruct (py_eq (new_name r0) n) eqn:En.
  - intros [= <-]. destruct (py_eq (new_name r0) (pi_name q)); simpl.
    + rewrite En. eexists. split; [reflexivity|apply merged_row_grows].
    + rewrite En. eexists. split; [reflexivity|apply grows_refl].
  - intros Hr. destruct (py_eq (new_name r0) (pi_name q)); simpl.
    + rewrite En. exists r. split; [exact Hr|apply grows_refl].
    + rewrite En. apply IH, Hr.
Qed.

Lemma foldl_merge_result_keeps_found (people : list PersonInfo)
      (rs : list LeadResult) (n : value) (r : LeadResult) :
  existing_result n rs = Some r ->
  exists r',
    existing_result n (foldl (merge_result R from_address person) rs people)
    = Some r'
    /\ grows r r'.
Proof.
  revert rs r. induction people as [|p people IH]; intros rs r Hr; simpl.
  - exists r. split; [exact Hr|apply grows_refl].
  - destruct (merge_result_keeps_found rs p n r Hr) as (r1 & H1 & G1).
    destruct (IH _ _ H1) as (r2 & H2 & G2).
    exists r2. split; [exact H2|]. eapply grows_trans; eassumption.
Qed.

Lemma foldl_merge_result_covers (people : list PersonInfo)
      (rs : list LeadResult) (p : PersonInfo) :
  p ∈ people -> py_eq (pi_name p) (pi_name p) = true ->
  exists r,
    existing_result (pi_name p)
      (foldl (merge_result R from_address person) rs people) = Some r
    /\ covers (pi_phones p) (pi_addresses p) r.
Proof.
  intros Hp Hrefl. revert rs.
  induction people as [|q people IH]; intros rs; simpl; [inversion Hp|].
  apply elem_of_cons in Hp as [<-|Hp]; [|apply IH, Hp].
  destruct (merge_result_finds rs p Hrefl) as (r1 & H1 & C1).
  destruct (foldl_merge_result_keeps_found people _ _ _ H1) as (r2 & H2 & G2).
  exists r2. split; [exact H2|]. eapply covers_mono; eassumption.
Qed.

Lemma merge_result_not_nil (rs : list LeadResult) (p : PersonInfo) :
  merge_result R from_address person rs p <> [].
Proof.
  destruct rs as [|r rs]; simpl; [discriminate|].
  destruct (py_eq (new_name r) (pi_name p)); discriminate.
Qed.

Lemma foldl_merge_result_not_nil (people : list PersonInfo)
      (rs : list LeadResult) :
  rs <> [] -> foldl (merge_result R from_address person) rs people <> [].
Proof.
  revert rs. induction people as [|p people IH]; intros rs H; simpl;
    [exact H|]. apply IH, merge_result_not_nil.
Qed.
End MergeFacts.

(** The same facts for the records of [found_people], read through the
    rows that [process_lookup_data] makes of them. *)
Section FoundFacts.
Variable R : PyRuntime.
Variable person : list (str * value).
Variable failed : bool.

Lemma merged_person_grows (q p : PersonInfo) :
  grows (result_of R person failed q)
    (result_of R person failed
       (mkPerson (pi_name q) (pi_age q)
          (foldl append_new (pi_phones q) (pi_phones p))
          (foldl append_new_str (pi_addresses q) (pi_addresses p)))).
Proof.
  unfold grows. cbn. repeat split.
  - apply foldl_append_new_prefix.
  - apply foldl_append_new_str_prefix.
  - auto.
Qed.

Lemma merge_found_finds (found : list PersonInfo) (p : PersonInfo) :
  py_eq (pi_name p) (pi_name p) = true ->
  exists q, find_person (pi_name p) (merge_found found p) = Some q
            /\ covers (pi_phones p) (pi_addresses p)
                 (result_of R person failed q).
Proof.
  intros Hrefl. unfold find_person.
  induction found as [|q0 found IH]; simpl.
  - rewrite Hrefl. exists p. split; [reflexivity|]. split; cbn.
    + intros x Hx. left. exact Hx.
    + auto.
  - destruct (py_eq (pi_name q0) (pi_name p)) eqn:E; simpl.
    + rewrite E. eexists. split; [reflexivity|]. split; cbn.
      * intros x Hx. apply foldl_append_new_listed, Hx.
      * intros a Ha. apply foldl_append_new_str_elem, Ha.
    + rewrite E. exact IH.
Qed.

Lemma merge_found_keeps_found (found : list PersonInfo) (p : PersonInfo)
      (n : value) (q : PersonInfo) :
  find_person n found = Some q ->
  exists q', find_person n (merge_found found p) = Some q'
             /\ grows (result_of R person failed q)
                  (result_of R person failed q').
Proof.
  unfold find_person.
  induction found as [|q0 found IH]; simpl; [discriminate|].
  destruct (py_eq (pi_name q0) n) eqn:En.
  - intros [= <-]. destruct (py_eq (pi_name q0) (pi_name p)); simpl.
    + rewrite En. eexists. split; [reflexivity|apply merged_person_grows].
    + rewrite En. eexists. split; [reflexivity|apply grows_refl].
  - intros Hq. destruct (py_eq (pi_name q0) (pi_name p)); simpl.
    + rewrite En. exists q. split; [exact Hq|apply grows_refl].
    + rewrite En. apply IH, Hq.
Qed.

Lemma foldl_merge_found_keeps_found (people found : list PersonInfo)
      (n : value) (q : PersonInfo) :
  find_person n found = Some q ->
  exists q', find_person n (foldl merge_found found people) = Some q'
             /\ grows (result_of R person failed q)
                  (result_of R person failed q').
Proof.
  revert found q. induction people as [|p people IH]; intros found q Hq; simpl.
  - exists q. split; [exact Hq|apply grows_refl].
  - destruct (merge_found_keeps_found found p n q Hq) as (q1 & H1 & G1).
    destruct (IH _ _ H1) as (q2 & H2 & G2).
    exists q2. split; [exact H2|]. eapply grows_trans; eassumption.
Qed.

Lemma foldl_merge_found_covers (people found : list PersonInfo)
      (p : PersonInfo) :
  p ∈ people -> py_eq (pi_name p) (pi_name p) = true ->
  exists q, find_person (pi_name p) (foldl merge_found found people) = Some q
            /\ covers (pi_phones p) (pi_addresses p)
                 (result_of R person failed q).
Proof.
  intros Hp Hrefl. revert found.
  induction people as [|q0 people IH]; intros found; simpl; [inversion Hp|].
  apply elem_of_cons in Hp as [<-|Hp]; [|apply IH, Hp].
  destruct (merge_found_finds found p Hrefl) as (q1 & H1 & C1).
  destruct (foldl_merge_found_keeps_found people _ _ _ H1) as (q2 & H2 & G2).
  exists q2. split; [exact H2|]. eapply covers_mono; eassumption.
Qed.

Lemma existing_result_of_found (n : value) (found : list PersonInfo) :
  existing_result n (map (result_of R person failed) found)
  = result_of R person failed <$> find_person n found.
Proof.
  unfold existing_result, find_person.
  induction found as [|q found IH]; simpl; [reflexivity|].
  destruct (py_eq (pi_name q) n); [reflexivity|exact IH].
Qed.
End FoundFacts.

Section CoverFacts.
Variable R : PyRuntime.

Lemma process_lookup_data_covers person phone_data address_data rs
      (people : list PersonInfo) (p : PersonInfo) :
  process_lookup_data R person phone_data address_data = Ok rs ->
  people_of R phone_data = Ok people \/ people_of R address_data = Ok people ->
  p ∈ people -> py_eq (pi_name p) (pi_name p) = true ->
  exists r, existing_result (pi_name p) rs = Some r
            /\ covers (pi_phones p) (pi_addresses p) r.
Proof.
  intros H Hpeople Hp Hrefl.
  destruct (process_lookup_data_inv R _ _ _ _ H)
    as (failed & pp & ap & _ & Hpp & Hap & Hrs).
  cbv zeta in Hrs.
  assert (Hfound : exists q,
             find_person (pi_name p)
               (foldl merge_found (foldl merge_found [] pp) ap) = Some q
             /\ covers (pi_phones p) (pi_addresses p)
                  (result_of R person failed q)).
  { destruct Hpeople as [Hd|Hd].
    - assert (pp = people) as -> by congruence.
      destruct (foldl_merge_found_covers R person failed people [] p Hp Hrefl)
        as (q1 & H1 & C1).
      destruct (foldl_merge_found_keeps_found R person failed ap _ _ _ H1)
        as (q2 & H2 & G2).
      exists q2. split; [exact H2|]. eapply covers_mono; eassumption.
    - assert (ap = people) as -> by congruence.
      apply foldl_merge_found_covers; assumption. }
  destruct Hfound as (q & Hq & Hc).
  destruct (foldl merge_found (foldl merge_found [] pp) ap) as [|q0 found] eqn:E;
    [discriminate|].
  subst rs. exists (result_of R person failed q). split; [|exact Hc].
  rewrite existing_result_of_found, Hq. reflexivity.
Qed.

Lemma process_lookup_data_not_nil person phone_data address_data rs :
  process_lookup_data R person phone_data address_data = Ok rs -> rs <> [].
Proof.
  intros H.
  destruct (process_lookup_data_inv R _ _ _ _ H)
    as (failed & pp & ap & _ & _ & _ & Hrs).
  cbv zeta in Hrs.
  destruct (foldl merge_found (foldl merge_found [] pp) ap);
    subst rs; discriminate.
Qed.

End CoverFacts.

(** An accumulator that merges (the list does not start fresh) keeps
    every row at its index: contact fields, name, status and notes are
    unchanged, the phones and addresses the row had are still there in
    the same order with any new ones after them, an age that was set is
    kept, and a cleared address flag stays cleared. *)
Theorem accumulators_keep_rows (R : PyRuntime) (from_address : bool)
        (data : value) (person : list (str * value))
        (cur rs : list LeadResult) (i : nat) (r : LeadResult) :
  starts_fresh cur = false ->
  (if from_address then accumulate_address_results R data person cur
   else accumulate_phone_results R data person cur) = Ok rs ->
  cur !! i = Some r ->
  exists r', rs !! i = Some r' /\ grows r r'.
Proof.
  intros Hfresh H Hi.
  assert (Hfold : exists people,
             rs = foldl (merge_result R from_address person) cur people).
  { destruct from_address;
      unfold accumulate_address_results, accumulate_phone_results in H;
      rewrite Hfresh in H; inv_bind H; eauto. }
  destruct Hfold as (people & ->).
  apply foldl_merge_result_grows, Hi.
Qed.

(** The sample address pass on the rows of Alice and Bob: Alice's row
    stays first. *)
Lemma accumulators_keep_rows_witness :
  exists r',
    [sample_result "Alice" [VStr (ustr "+15125550100")] false;
     sample_result "Bob" [] true] !! 0%nat = Some r'
    /\ grows (sample_result "Alice" [] true) r'.
Proof.
  apply (accumulators_keep_rows py_ascii true sample_address_data
           sample_contact
           [sample_result "Alice" [] true; sample_result "Bob" [] true]).
  - reflexivity.
  - vm_compute. reflexivity.
  - reflexivity.
Defined.

(** After an accumulator has run, each person extracted from the
    document (whose name equals itself) has a row: the first row of that
    name exists and holds all the phones and addresses of the person.
    This holds for the merging branch and for the fresh start alike. *)
Theorem accumulators_cover_document (R : PyRuntime) (from_address : bool)
        (data : value) (person : list (str * value))
        (cur rs : list LeadResult)
        (people : list PersonInfo) (p : PersonInfo) :
  (if from_address then accumulate_address_results R data person cur
   else accumulate_phone_results R data person cur) = Ok rs ->
  people_of R data = Ok people ->
  p ∈ people -> py_eq (pi_name p) (pi_name p) = true ->
  exists r, existing_result (pi_name p) rs = Some r
            /\ covers (pi_phones p) (pi_addresses p) r.
Proof.
  intros H Hpeople Hp Hrefl. destruct (starts_fresh cur) eqn:Hfresh.
  - destruct from_address;
      unfold accumulate_address_results, accumulate_phone_results in H;
      rewrite Hfresh in H;
      (eapply process_lookup_data_covers; [exact H| |exact Hp|exact Hrefl]);
      [right|left]; exact Hpeople.
  - assert (rs = foldl (merge_result R from_address person) cur people) as ->.
    { destruct from_address;
        unfold accumulate_address_results, accumulate_phone_results in H;
        rewrite Hfresh, Hpeople in H; simpl in H; congruence. }
    apply foldl_merge_result_covers; assumption.
Qed.

(** Alice of the sample address document, merged into the rows of Alice
    and Bob. *)
Lemma accumulators_cover_document_witness :
  exists r,
    existing_result (VStr (ustr "Alice"))
      [sample_result "Alice" [VStr (ustr "+15125550100")] false;
       sample_result "Bob" [] true] = Some r
    /\ covers [VStr (ustr "+15125550100")] [] r.
Proof.
  apply (accumulators_cover_document py_ascii true sample_address_data
           sample_contact
           [sample_result "Alice" [] true; sample_result "Bob" [] true]
           _
           [mkPerson (VStr (ustr "Alice")) (VStr [])
                     [VStr (ustr "+15125550100")] []]
           (mkPerson (VStr (ustr "Alice")) (VStr [])
                     [VStr (ustr "+15125550100")] [])).
  - vm_compute. reflexivity.
  - vm_compute. reflexivity.
  - apply list_elem_of_here.
  - reflexivity.
Defined.

(** Whenever an accumulator returns, the list of results is not empty:
    a fresh start yields at least the sentinel row, a merge never
    removes a row. *)
Theorem accumulators_leave_a_row (R : PyRuntime) (from_address : bool)
        (data : value) (person : list (str * value))
        (cur rs : list LeadResult) :
  (if from_address then accumulate_address_results R data person cur
   else accumulate_phone_results R data person cur) = Ok rs ->
  rs <> [].
Proof.
  intros H. destruct (starts_fresh cur) eqn:Hfresh.
  - destruct from_address;
      unfold accumulate_address_results, accumulate_phone_results in H;
      rewrite Hfresh in H; eapply process_lookup_data_not_nil; exact H.
  - assert (Hfold : exists people,
               rs = foldl (merge_result R from_address person) cur people).
    { destruct from_address;
        unfold accumulate_address_results, accumulate_phone_results in H;
        rewrite Hfresh in H; inv_bind H; eauto. }
    destruct Hfold as (people & ->).
    apply foldl_merge_result_not_nil.
    destruct cur; [discriminate|discriminate].
Qed.

(** An empty document on the empty list of [__init__]. *)
Lemma accumulators_leave_a_row_witness :
  [sentinel_result py_ascii sample_contact true] <> [].
Proof.
  apply (accumulators_leave_a_row py_ascii false VNone sample_contact []).
  vm_compute. reflexivity.
Defined.

(** ** When the extractor raises *)

Lemma as_strs_raises (parts : list value) :
  as_strs parts = Raise <-> forallb is_str parts = false.
Proof.
  induction parts as [|v parts IH]; simpl; [split; discriminate|].
  destruct v; simpl; try (split; reflexivity).
  rewrite <- IH. destruct (as_strs parts); simpl; split; congruence.
Qed.

Lemma format_address_raises (addr : list (str * value)) :
  format_address addr = Raise <-> plain_address addr = false.
Proof.
  unfold format_address, plain_address.
  destruct addr as [|kv addr]; [split; discriminate|].
  set (d := kv :: addr).
  assert (Hpart : forall k rest,
             forallb is_str
               ((if truthy (get k d) then [get k d] else []) ++ rest)
             = text_or_empty (get k d) && forallb is_str rest).
  { intros k rest. destruct (get k d) as [ | b | z | f | s | l | m ] eqn:E;
      cbn [text_or_empty]; destruct (truthy _); reflexivity. }
  assert (Hnone : forall parts,
             join (ustr ", ") <$> as_strs parts = Raise
             <-> forallb is_str parts = false).
  { intros parts. rewrite <- as_strs_raises.
    destruct (as_strs parts); simpl; split; congruence. }
  replace (negb (truthy (VDict d))) with false by reflexivity.
  rewrite Hnone, !Hpart. cbn [forallb app].
  rewrite <- (app_nil_r (if truthy (get k_postal_code d) then _ else _)).
  rewrite Hpart. cbn [forallb]. reflexivity.
Qed.

Section RaiseFacts.
Variable R : PyRuntime.

Lemma addresses_loop_raises (items : list value) (addresses : list str) :
  addresses_loop addresses items = Raise
  <-> exists addr, VDict addr ∈ items /\ plain_address addr = false.
Proof.
  revert addresses. induction items as [|item items IH]; intros addresses.
  - simpl. split; [discriminate|]. intros (addr & H & _). inversion H.
  - assert (Hskip : (forall d, item <> VDict d) ->
                    (exists addr, VDict addr ∈ item :: items
                                  /\ plain_address addr = false)
                    <-> exists addr, VDict addr ∈ items
                                     /\ plain_address addr = false).
    { intros Hne. split; intros (addr & Hin & Hp); exists addr; split; auto.
      - apply elem_of_cons in Hin as [Heq|Hin]; [|exact Hin].
        destruct (Hne addr). symmetry. exact Heq.
      - apply list_elem_of_further, Hin. }
    destruct item as [ | b | z | f | s | l | addr0 ];
      try (cbn [addresses_loop]; rewrite IH; symmetry; apply Hskip;
           intros d; discriminate).
    cbn [addresses_loop].
    destruct (format_address addr0) as [formatted|] eqn:E; simpl.
    + rewrite IH. split; intros (addr & Hin & Hp); exists addr; split; auto.
      * apply list_elem_of_further, Hin.
      * apply elem_of_cons in Hin as [[= ->]|Hin]; [|exact Hin].
        apply format_address_raises in Hp. congruence.
    + split; [|reflexivity]. intros _. exists addr0. split.
      * apply list_elem_of_here.
      * apply format_address_raises, E.
Qed.

Lemma person_at_raises (obj : list (str * value)) :
  person_at R obj = Raise
  <-> emits_person R obj = true
      /\ exists addr, VDict addr ∈ address_items obj
                      /\ plain_address addr = false.
Proof.
  unfold person_at, emits_person, address_items.
  destruct (truthy (get k_name obj) || truthy (get k_firstname obj)
            || truthy (get k_lastname obj));
    [|split; [discriminate|intros [? _]; discriminate]].
  destruct (truthy (person_name R obj));
    [|split; [discriminate|intros [? _]; discriminate]].
  cbn [andb].
  destruct (addresses_loop [] (list_field k_current_addresses obj))
    as [addresses|] eqn:E1; simpl.
  - destruct (addresses_loop addresses
                (list_field k_historical_addresses obj)) as [a2|] eqn:E2; simpl.
    + split; [discriminate|]. intros (_ & addr & Hin & Hp).
      apply elem_of_app in Hin as [Hin|Hin].
      * assert (addresses_loop [] (list_field k_current_addresses obj) = Raise)
          by (apply addresses_loop_raises; eauto). congruence.
      * assert (addresses_loop addresses
                  (list_field k_historical_addresses obj) = Raise)
          by (apply addresses_loop_raises; eauto). congruence.
    + split; [|reflexivity]. intros _. split; [reflexivity|].
      apply addresses_loop_raises in E2 as (addr & Hin & Hp).
      exists addr. split; [|exact Hp]. apply elem_of_app. auto.
  - split; [|reflexivity]. intros _. split; [reflexivity|].
    apply addresses_loop_raises in E1 as (addr & Hin & Hp).
    exists addr. split; [|exact Hp]. apply elem_of_app. auto.
Qed.

(** A walk that raises met a node at which [person_at] raises. *)
Lemma walk_value_raises (v : value) :
  walk_value (traverse R) v = Raise ->
  exists obj, visited v obj /\ person_at R obj = Raise.
Proof.
  induction v as [ | | | | | l IHl | d IHd ] using value_ind_nested;
    try discriminate.
  - cbn [walk_value]. induction IHl as [|item l Hitem _ IH]; [discriminate|].
    cbn [walk_items].
    destruct (walk_item (traverse R) item) as [a|] eqn:Ea; simpl.
    + destruct (walk_items (traverse R) l) as [b|] eqn:Eb; [discriminate|].
      intros _. destruct (IH eq_refl) as (obj & Hv & Hat).
      exists obj. split; [|exact Hat].
      inversion Hv; subst. eapply visited_item; [|eassumption].
      apply list_elem_of_further. assumption.
    + intros _. destruct item; try discriminate.
      destruct (Hitem Ea) as (obj & Hv & Hat).
      exists obj. split; [|exact Hat].
      eapply visited_item; [apply list_elem_of_here|exact Hv].
  - cbn [walk_value]. rewrite traverse_dict.
    destruct (truthy (VDict d)) eqn:Hd; [|discriminate]. cbn [negb].
    destruct (person_at R d) as [here|] eqn:Ehere; simpl.
    + destruct (walk_fields (traverse R) d) as [below|] eqn:Ebelow;
        [discriminate|]. intros _.
      assert (Hfield : exists k v obj,
                 (k, v) ∈ d /\ visited v obj /\ person_at R obj = Raise).
      { clear Hd Ehere. induction IHd as [|[k v] d Hv _ IH]; [discriminate|].
        cbn [walk_fields] in Ebelow.
        destruct (walk_value (traverse R) v) as [first|] eqn:Efirst.
        - destruct (walk_fields (traverse R) d) as [rest|] eqn:Erest;
            [discriminate|].
          destruct (IH eq_refl) as (k' & v' & obj & Hin & Hvis & Hat).
          exists k', v', obj. split; [apply list_elem_of_further, Hin|auto].
        - destruct (Hv Efirst) as (obj & Hvis & Hat).
          exists k, v, obj. split; [apply list_elem_of_here|auto]. }
      destruct Hfield as (k & v & obj & Hin & Hvis & Hat).
      exists obj. split; [|exact Hat]. eapply visited_field; eassumption.
    + intros _. exists d. split; [apply visited_here, Hd|exact Ehere].
Qed.

(** Conversely, a node at which [person_at] raises makes the walk raise. *)
Lemma visited_raises (v : value) (obj : list (str * value)) :
  visited v obj -> person_at R obj = Raise ->
  walk_value (traverse R) v = Raise.
Proof.
  induction 1 as [d Hd | d k v obj Hd Hkv Hv IH | l d obj Hin Hv IH];
    intros Hat.
  - cbn [walk_value]. rewrite traverse_dict, Hd, Hat. reflexivity.
  - cbn [walk_value]. rewrite traverse_dict, Hd. cbn [negb].
    destruct (person_at R d) as [here|]; [|reflexivity]. simpl.
    destruct (walk_fields (traverse R) d) as [below|] eqn:Hbelow;
      [|reflexivity].
    destruct (walk_fields_elem R d k v below Hbelow Hkv) as (first & Hf & _).
    rewrite (IH Hat) in Hf. discriminate.
  - cbn [walk_value].
    destruct (walk_items (traverse R) l) as [people|] eqn:Hl; [|reflexivity].
    destruct (walk_items_elem R l d people Hl Hin) as (a & Ha & _).
    specialize (IH Hat). cbn [walk_value] in IH. congruence.
Qed.
End RaiseFacts.

(** [format_address] raises exactly on a dict one of whose four parts is
    truthy and not a string (the [TypeError] of [join]); on every other
    dict it returns a string. *)
Theorem format_address_raises_iff (addr : list (str * value)) :
  format_address addr = Raise <-> plain_address addr = false.
Proof. apply format_address_raises. Qed.

(** [extract_people_from_data] raises exactly when the walk meets a node
    that passes the person tests and has, in its current or historical
    addresses, a dict with a truthy part that is not a string.  On every
    other document it returns the list of people. *)
Theorem extraction_raises_iff (R : PyRuntime) (data : value) :
  extract_people_from_data R data = Raise
  <-> exists obj addr,
        visited data obj /\ emits_person R obj = true
        /\ VDict addr ∈ address_items obj /\ plain_address addr = false.
Proof.
  rewrite extract_is_walk. split.
  - intros H. destruct (walk_value_raises R data H) as (obj & Hv & Hat).
    apply person_at_raises in Hat as (He & addr & Hin & Hp).
    exists obj, addr. auto.
  - intros (obj & addr & Hv & He & Hin & Hp).
    apply (visited_raises R data obj Hv), person_at_raises.
    split; [exact He|]. exists addr. auto.
Qed.

(** ** The shape of the fields [parse_address] returns *)

Section RegexFacts.
Variable R : PyRuntime.
Variable ic : bool.
Import Re.

Lemma rmatch_cls (p : char -> bool) (st : mstate)
      (k : mstate -> option mstate) (m : mstate) :
  rmatch R ic (Cls p) st k = Some m ->
  exists d t,
    m_rest st = d :: t /\ p d = true
    /\ k (MState (Some d) t (S (m_pos st)) (m_grp st)) = Some m.
Proof.
  cbn [rmatch]. destruct (m_rest st) as [|d t] eqn:E; [discriminate|].
  destruct (p d) eqn:Ep; [|discriminate].
  unfold advance. rewrite E. simpl. eauto.
Qed.

Lemma rmatch_rep_S (n : nat) (r : regex) (st : mstate)
      (k : mstate -> option mstate) :
  rmatch R ic (Rep (S n) r) st k
  = rmatch R ic r st (fun st1 => rmatch R ic (Rep n r) st1 k).
Proof. reflexivity. Qed.

Lemma rmatch_rep_cls (n : nat) (p : char -> bool) :
  forall (st : mstate) (k : mstate -> option mstate) (m : mstate),
    rmatch R ic (Rep n (Cls p)) st k = Some m ->
    exists ds t pv,
      m_rest st = ds ++ t /\ length ds = n /\ forallb p ds = true
      /\ k (MState pv t (m_pos st + n) (m_grp st)) = Some m.
Proof.
  induction n as [|n IH]; intros st k m H.
  - exists [], (m_rest st), (m_prev st). repeat split.
    rewrite Nat.add_0_r. destruct st. exact H.
  - rewrite rmatch_rep_S in H.
    apply rmatch_cls in H as (d & t & Hrest & Hd & H).
    apply IH in H as (ds & t' & pv & Ht & Hlen & Hds & H).
    cbn [m_rest m_pos m_grp] in *.
    exists (d :: ds), t', pv. rewrite Hrest, Ht. repeat split.
    + simpl. congruence.
    + simpl. rewrite Hd, Hds. reflexivity.
    + rewrite <- H. do 2 f_equal. lia.
Qed.

Lemma rmatch_keeps_grp (r : regex) :
  group_free r = true ->
  forall k, keeps_grp k -> keeps_grp (fun st => rmatch R ic r st k).
Proof.
  induction r as [c|p|r1 IH1 r2 IH2|r1 IH1 r2 IH2|r1 IH1|r1 IH1|n r1 IH1
                  |r1 IH1|r1 IH1| | ];
    intros Hfree k Hk st m; cbn [group_free] in Hfree.
  - cbn [rmatch]. destruct (m_rest st) as [|d t] eqn:E; [discriminate|].
    destruct (if ic then _ else _); [|discriminate].
    unfold advance. rewrite E. simpl. intros H. apply Hk in H. exact H.
  - cbn [rmatch]. destruct (m_rest st) as [|d t] eqn:E; [discriminate|].
    destruct (p d); [|discriminate].
    unfold advance. rewrite E. simpl. intros H. apply Hk in H. exact H.
  - cbn [rmatch]. apply andb_prop in Hfree as [H1 H2].
    apply (IH1 H1 (fun st1 => rmatch R ic r2 st1 k)). apply IH2; assumption.
  - cbn [rmatch]. apply andb_prop in Hfree as [H1 H2].
    destruct (rmatch R ic r1 st k) as [m1|] eqn:E1.
    + intros [= <-]. exact (IH1 H1 k Hk st m1 E1).
    + apply (IH2 H2 k Hk).
  - assert (Hloop : forall n,
               keeps_grp
                 ((fix loop (n : nat) (st : mstate) {struct n}
                     : option mstate :=
                     match n with
                     | O => k st
                     | S n' =>
                         match rmatch R ic r1 st
                                 (fun st1 => if m_pos st <? m_pos st1
                                             then loop n' st1 else None) with
                         | Some m => Some m
                         | None => k st
                         end
                     end) n)).
    { induction n as [|n IHn]; intros st' m'; [exact (Hk st' m')|].
      match goal with
      | |- match ?e with _ => _ end = _ -> _ => destruct e as [m1|] eqn:E1
      end.
      - intros [= <-]. revert E1. apply (IH1 Hfree).
        intros st1 m''. destruct (m_pos st' <? m_pos st1); [|discriminate].
        apply IHn.
      - exact (Hk st' m'). }
    exact (Hloop (S (length (m_rest st))) st m).
  - cbn [rmatch]. destruct (rmatch R ic r1 st k) as [m1|] eqn:E1.
    + intros [= <-]. exact (IH1 Hfree k Hk st m1 E1).
    + apply Hk.
  - revert st m. induction n as [|n IHn]; intros st m; [exact (Hk st m)|].
    rewrite rmatch_rep_S. exact (IH1 Hfree _ IHn st m).
  - discriminate.
  - cbn [rmatch]. apply (IH1 Hfree k Hk).
  - cbn [rmatch]. destruct (at_boundary R st); [apply Hk|discriminate].
  - cbn [rmatch]. destruct (m_rest st) as [|c [|c' t]];
      [apply Hk| |discriminate].
    destruct (c =? 10)%N; [apply Hk|discriminate].
Qed.

(** [re.search] reports a match of the pattern at some position of the
    subject. *)
Lemma search_from_inv (r : regex) (rest : str) :
  forall (prev : option char) (pos : nat) (pre : str) (mo : rmatch_obj),
    search_from R ic r prev rest pos = Some mo -> length pre = pos ->
    exists prev' pre' rest' st,
      pre ++ rest = pre' ++ rest'
      /\ match_at R ic r prev' rest' (length pre') = Some st
      /\ mo = MatchObj (length pre') (m_pos st) (m_grp st).
Proof.
  induction rest as [|c t IH]; intros prev pos pre mo H Hlen;
    cbn [search_from] in H;
    destruct (match_at R ic r prev _ pos) as [st|] eqn:E.
  - injection H as <-. subst pos. eauto 10.
  - discriminate.
  - injection H as <-. subst pos. eauto 10.
  - destruct (IH (Some c) (S pos) (pre ++ [c]) mo H) as
      (prev' & pre' & rest' & st & Heq & Hm & Hmo).
    { rewrite length_app. simpl. lia. }
    exists prev', pre', rest', st. rewrite <- Heq, <- app_assoc. auto.
Qed.
End RegexFacts.

Section FieldShapes.
Variable R : PyRuntime.
Import Re.

Lemma rmatch_cat (ic : bool) (r1 r2 : regex) (st : mstate)
      (k : mstate -> option mstate) :
  rmatch R ic (Cat r1 r2) st k
  = rmatch R ic r1 st (fun st1 => rmatch R ic r2 st1 k).
Proof. reflexivity. Qed.

Lemma rmatch_group (ic : bool) (r : regex) (st : mstate)
      (k : mstate -> option mstate) :
  rmatch R ic (Group r) st k
  = rmatch R ic r st (fun st1 => k (set_grp (m_pos st) (m_pos st1) st1)).
Proof. reflexivity. Qed.

Lemma rmatch_wordb (ic : bool) (st : mstate) (k : mstate -> option mstate)
      (m : mstate) :
  rmatch R ic WordB st k = Some m -> k st = Some m.
Proof. cbn [rmatch]. destruct (at_boundary R st); [auto|discriminate]. Qed.

Lemma rmatch_hyphen (st : mstate) (k : mstate -> option mstate) (m : mstate) :
  rmatch R false (Lit (ch "-"%char)) st k = Some m ->
  exists t,
    m_rest st = ch "-"%char :: t
    /\ k (MState (Some (ch "-"%char)) t (S (m_pos st)) (m_grp st)) = Some m.
Proof.
  cbn [rmatch]. destruct (m_rest st) as [|d t] eqn:E; [discriminate|].
  destruct (ch "-"%char =? d)%N eqn:Ed; [|discriminate].
  apply N.eqb_eq in Ed as <-.
  unfold advance. rewrite E. simpl. eauto.
Qed.

(** A match of the ZIP pattern: group 1 spans five digits, or five
    digits, a hyphen and four digits. *)
Lemma zip_match_inv (prev : option char) (rest : str) (pos : nat)
      (st : mstate) :
  match_at R false (zip_pattern R) prev rest pos = Some st ->
  exists z t,
    rest = z ++ t /\ zip_shape R z = true
    /\ m_grp st = Some (pos, pos + length z).
Proof.
  unfold match_at, zip_pattern, cats. cbn [foldr]. intros H.
  rewrite rmatch_cat in H. apply rmatch_wordb in H.
  rewrite rmatch_cat, rmatch_group, rmatch_cat in H.
  apply rmatch_rep_cls in H as (ds & t & pv & Hrest & Hlen & Hds & H).
  cbn [m_rest m_pos m_grp] in *.
  assert (Htail : forall stx,
             rmatch R false (Cat WordB (Rep 0 (Lit 0%N)))
               (set_grp pos (m_pos stx) stx) Some = Some st ->
             m_grp st = Some (pos, m_pos stx)).
  { intros stx Hx. rewrite rmatch_cat in Hx. apply rmatch_wordb in Hx.
    cbn in Hx. injection Hx as <-. reflexivity. }
  cbn [rmatch] in H.
  match type of H with
  | match ?e with _ => _ end = _ => destruct e as [m1|] eqn:E
  end.
  - injection H as ->.
    change (rmatch R false (Cat (Lit (ch "-"%char)) (Rep 4 (dgt R)))
              (MState pv t (pos + 5) None)
              (fun st1 => rmatch R false (Cat WordB (Rep 0 (Lit 0%N)))
                            (set_grp pos (m_pos st1) st1) Some)
            = Some st) in E.
    rewrite rmatch_cat in E.
    apply rmatch_hyphen in E as (t' & Ht & E). cbn [m_rest m_pos m_grp] in *.
    apply rmatch_rep_cls in E as (ds' & t'' & pv' & Ht' & Hlen' & Hds' & E).
    cbn [m_rest m_pos m_grp] in *. apply Htail in E. cbn [m_pos] in E.
    exists (ds ++ ch "-"%char :: ds'), t''. split; [|split].
    + rewrite Hrest, Ht, Ht', <- app_assoc. reflexivity.
    + unfold zip_shape. apply orb_true_intro. right.
      destruct ds as [|d1 [|d2 [|d3 [|d4 [|d5 [|d6 ds]]]]]]; try discriminate.
      cbn [app length take drop]. rewrite Hlen'. cbn [Nat.eqb andb].
      rewrite take_0, drop_0, Hds, Hds'. reflexivity.
    + rewrite E. rewrite length_app. simpl length. rewrite Hlen, Hlen'.
      do 2 f_equal. lia.
  - apply Htail in H. cbn [m_pos] in H.
    exists ds, t. split; [exact Hrest|]. split.
    + unfold zip_shape. rewrite Hlen, Hds. reflexivity.
    + rewrite H, Hlen. reflexivity.
Qed.

(** A match of the state-code pattern: group 1 spans two capitals. *)
Lemma state_match_inv (prev : option char) (rest : str) (pos : nat)
      (st : mstate) :
  match_at R false (state_pattern R) prev rest pos = Some st ->
  exists z t,
    rest = z ++ t /\ state_shape z = true
    /\ m_grp st = Some (pos, pos + length z).
Proof.
  unfold match_at, state_pattern, cats. cbn [foldr]. intros H.
  rewrite rmatch_cat in H. apply rmatch_wordb in H.
  rewrite rmatch_cat, rmatch_group in H.
  apply rmatch_rep_cls in H as (ds & t & pv & Hrest & Hlen & Hds & H).
  cbn [m_rest m_pos m_grp] in *.
  apply (rmatch_keeps_grp R false
           (Cat (Star (ws R)) (Cat Eos (Rep 0 (Lit 0%N)))) eq_refl Some) in H;
    [|intros ? ? [= <-]; reflexivity].
  exists ds, t. split; [exact Hrest|]. split.
  - unfold state_shape. rewrite Hlen, Hds. reflexivity.
  - rewrite H, Hlen. reflexivity.
Qed.

Lemma group1_of_match (pre z t : str) (e : nat) :
  group1 (MatchObj (length pre) e (Some (length pre, length pre + length z)))
         (pre ++ z ++ t) = z.
Proof.
  unfold group1. cbn [mo_grp].
  replace (length pre + length z - length pre) with (length z) by lia.
  rewrite drop_app_length, take_app_length. reflexivity.
Qed.

Lemma search_zip (s : str) (m : rmatch_obj) :
  search R false (zip_pattern R) s = Some m ->
  zip_shape R (group1 m s) = true.
Proof.
  intros H.
  destruct (search_from_inv R false _ s None 0 [] m H eq_refl)
    as (prev' & pre' & rest' & st & Heq & Hm & ->).
  apply zip_match_inv in Hm as (z & t & -> & Hz & Hg).
  simpl in Heq. rewrite Heq, Hg, group1_of_match. exact Hz.
Qed.

Lemma search_state (s : str) (m : rmatch_obj) :
  search R false (state_pattern R) s = Some m ->
  state_shape (group1 m s) = true.
Proof.
  intros H.
  destruct (search_from_inv R false _ s None 0 [] m H eq_refl)
    as (prev' & pre' & rest' & st & Heq & Hm & ->).
  apply state_match_inv in Hm as (z & t & -> & Hz & Hg).
  simpl in Heq. rewrite Heq, Hg, group1_of_match. exact Hz.
Qed.

Lemma find_state_name_code (names : list (str * str)) (before_zip : str)
      (code before_state : str) :
  find_state_name R names before_zip = Some (code, before_state) ->
  code ∈ map snd names.
Proof.
  induction names as [|[name c] names IH]; simpl; [discriminate|].
  destruct (search R true (state_name_pattern R name) before_zip).
  - intros [= <- _]. apply list_elem_of_here.
  - intros H. apply list_elem_of_further, IH, H.
Qed.

Lemma state_codes_shape :
  forallb state_shape (map snd state_names) = true.
Proof. vm_compute. reflexivity. Qed.
End FieldShapes.

(** The fields of every address that [parse_address] returns: the ZIP is
    empty or has the form ddddd or ddddd-dddd; the state is empty or two
    ASCII capitals; a state is given only with a ZIP and a city only
    with a state. *)
Theorem parse_address_fields (R : PyRuntime) (address_str : str) :
  let parsed := parse_address R address_str in
  (zip parsed = [] \/ zip_shape R (zip parsed) = true)
  /\ (state parsed = [] \/ state_shape (state parsed) = true)
  /\ (zip parsed = [] -> state parsed = [])
  /\ (state parsed = [] -> city parsed = []).
Proof.
  assert (Hzne : forall z, zip_shape R z = true -> z <> []).
  { intros z Hz ->. discriminate. }
  assert (Hsne : forall s, state_shape s = true -> s <> []).
  { intros s Hs ->. discriminate. }
  cbv zeta. unfold parse_address.
  destruct (negb (truthy (VStr address_str))); [cbn; auto|].
  match goal with
  | |- context [Re.search R false (zip_pattern R) ?s] =>
      destruct (Re.search R false (zip_pattern R) s) as [zm|] eqn:Ez;
        [pose proof (search_zip R s zm Ez) as Hzip|cbn; auto]
  end.
  cbv zeta.
  match goal with
  | |- context [Re.search R false (state_pattern R) ?s] =>
      destruct (Re.search R false (state_pattern R) s) as [sm|] eqn:Es;
        [pose proof (search_state R s sm Es) as Hstate|]
  end.
  - repeat match goal with
           | |- context [if ?b then _ else _] => destruct b
           | |- context [split_words R ?p] => destruct (split_words R p)
           end;
      cbn [zip state city street]; repeat split; auto;
        intros Habs; exfalso;
        first [exact (Hzne _ Hzip Habs) | exact (Hsne _ Hstate Habs)].
  - match goal with
    | |- context [find_state_name R state_names ?s] =>
        destruct (find_state_name R state_names s) as [[code bs]|] eqn:Ef
    end.
    + assert (Hstate : state_shape code = true).
      { pose proof (find_state_name_code R _ _ _ _ Ef) as Hin.
        pose proof state_codes_shape as Hall.
        rewrite forallb_forall in Hall. apply Hall, list_elem_of_In, Hin. }
      repeat match goal with
             | |- context [if ?b then _ else _] => destruct b
             | |- context [split_words R ?p] => destruct (split_words R p)
             end;
        cbn [zip state city street]; repeat split; auto;
          intros Habs; exfalso;
        first [exact (Hzne _ Hzip Habs) | exact (Hsne _ Hstate Habs)].
    + cbn [zip state city street]. repeat split; auto.
Qed.

(** ** The call history *)


Lemma get_set_eq (k : str) (v : value) (d : list (str * value)) :
  get k (dict_set k v d) = v.
Proof. unfold get. rewrite dict_get_set_eq. reflexivity. Qed.

Lemma get_set_ne (k k' : str) (v : value) (d : list (str * value)) :
  str_eqb k' k = false -> get k' (dict_set k v d) = get k' d.
Proof. intros H. unfold get. rewrite dict_get_set_ne; auto. Qed.


Lemma update_entry_phone now name status notes e :
  get k_phone (update_entry now name status notes e) = get k_phone e.
Proof.
  unfold update_entry.
  destruct (truthy notes), (truthy status), (truthy name);
    rewrite ?get_set_ne by reflexivity; reflexivity.
Qed.

Lemma update_entry_fields now name status notes e :
  let e' := update_entry now name status notes e in
  get k_timestamp e' = VStr now
  /\ get k_name e' = (if truthy name then name else get k_name e)
  /\ get k_status e' = (if truthy status then status else get k_status e)
  /\ get k_notes e' = (if truthy notes then notes else get k_notes e).
Proof.
  unfold update_entry.
  destruct (truthy notes), (truthy status), (truthy name); cbv zeta;
    repeat split;
    repeat first [ rewrite get_set_eq | rewrite get_set_ne by reflexivity ];
    reflexivity.
Qed.

Lemma find_entry_none (phone : value) (h : list value) (i : nat) :
  find_entry phone h i = Ok None ->
  Forall (fun v => (exists e, v = VDict e)
                   /\ py_eq (entry_phone v) phone = false) h.
Proof.
  revert i. induction h as [|v h IH]; intros i H; [constructor|].
  destruct v; try discriminate. cbn [find_entry] in H.
  destruct (py_eq (get k_phone d) phone) eqn:E; [discriminate|].
  constructor; [split; [eauto|exact E]|]. eapply IH, H.
Qed.

Lemma find_entry_some (phone : value) (h : list value) (i j : nat)
      (e : list (str * value)) :
  find_entry phone h i = Ok (Some (j, e)) ->
  exists before after,
    h = before ++ VDict e :: after /\ j = i + length before
    /\ py_eq (get k_phone e) phone = true
    /\ Forall (fun v => (exists e, v = VDict e)
                        /\ py_eq (entry_phone v) phone = false) before.
Proof.
  revert i. induction h as [|v h IH]; intros i H; [discriminate|].
  destruct v; try discriminate. cbn [find_entry] in H.
  destruct (py_eq (get k_phone d) phone) eqn:E.
  - injection H as <- <-. exists [], h. repeat split; auto.
  - destruct (IH _ H) as (before & after & -> & -> & Hm & Hb).
    exists (VDict d :: before), after. repeat split; auto.
    constructor; [split; [eauto|exact E]|exact Hb].
Qed.

Lemma find_entry_ok (phone : value) (h : list value) (i : nat) :
  Forall is_entry h -> exists found, find_entry phone h i = Ok found.
Proof.
  intros Hh. revert i. induction Hh as [|v h (e & -> & _) _ IH]; intros i.
  - eexists. reflexivity.
  - cbn [find_entry]. destruct (py_eq (get k_phone e) phone); eauto.
Qed.

Lemma find_entry_first (phone : value) (before after : list value)
      (e : list (str * value)) (i : nat) :
  Forall (fun v => (exists e, v = VDict e)
                   /\ py_eq (entry_phone v) phone = false) before ->
  py_eq (get k_phone e) phone = true ->
  find_entry phone (before ++ VDict e :: after) i
  = Ok (Some (i + length before, e)).
Proof.
  intros Hb He. revert i.
  induction Hb as [|v before [(e0 & ->) Hv] _ IH]; intros i.
  - simpl. rewrite He. do 3 f_equal. lia.
  - cbn [app find_entry]. cbn [entry_phone] in Hv. rewrite Hv, IH.
    do 3 f_equal. simpl. lia.
Qed.



Lemma add_to_call_history_inv settings now phone name status notes h :
  history_ok h ->
  truthy (get_or k_enable_call_history (VBool true) settings) = true ->
  (exists before e after,
      h = before ++ VDict e :: after
      /\ Forall (fun v => (exists e, v = VDict e)
                          /\ py_eq (entry_phone v) phone = false) before
      /\ py_eq (get k_phone e) phone = true
      /\ add_to_call_history settings now phone name status notes (VList h)
         = Ok (VList (before
                      ++ VDict (update_entry now name status notes e)
                      :: after)))
  \/ (Forall (fun v => (exists e, v = VDict e)
                       /\ py_eq (entry_phone v) phone = false) h
      /\ add_to_call_history settings now phone name status notes (VList h)
         = Ok (VList (h ++ [VDict (new_entry now phone name status notes)]))).
Proof.
  intros [Hentries Hdistinct] Hon. unfold add_to_call_history.
  rewrite Hon. cbn [negb].
  destruct (find_entry_ok phone h 0 Hentries) as ([[i e]|] & Hfind);
    rewrite Hfind; simpl.
  - left. apply find_entry_some in Hfind
      as (before & after & -> & -> & Hm & Hb).
    exists before, e, after. repeat split; auto.
    apply Forall_app in Hentries as [_ Hentries].
    apply Forall_cons in Hentries as [(e0 & Heq & Hne) _].
    injection Heq as Heq. subst e0.
    destruct e as [|kv e]; [congruence|]. cbn [truthy length].
    simpl. do 2 f_equal.
    rewrite insert_app_r_alt by lia.
    replace (length before - length before) with 0 by lia. reflexivity.
  - right. split; [|reflexivity]. eapply find_entry_none, Hfind.
Qed.



(** After [add_to_call_history] (enabled, on such a history, for a phone
    that equals itself) the first entry for the phone carries the new
    timestamp, and the name, status and notes given when they are
    truthy. *)
Theorem call_history_entry_after_add
        (settings : list (str * value)) (now : str)
        (phone name status notes : value)
        (call_history history' : list value) :
  history_ok call_history ->
  truthy (get_or k_enable_call_history (VBool true) settings) = true ->
  py_eq phone phone = true ->
  add_to_call_history settings now phone name status notes
                      (VList call_history) = Ok (VList history') ->
  exists i e,
    find_entry phone history' 0 = Ok (Some (i, e))
    /\ get k_timestamp e = VStr now
    /\ (truthy name = true -> get k_name e = name)
    /\ (truthy status = true -> get k_status e = status)
    /\ (truthy notes = true -> get k_notes e = notes).
Proof.
  intros Hok Hon Hrefl Hadd.
  destruct (add_to_call_history_inv settings now phone name status notes
              call_history Hok Hon)
    as [(before & e & after & -> & Hb & Hm & Heq)|[Hno Heq]];
    rewrite Heq in Hadd; injection Hadd as <-.
  - exists (0 + length before), (update_entry now name status notes e).
    split.
    + apply find_entry_first; [exact Hb|].
      rewrite update_entry_phone. exact Hm.
    + destruct (update_entry_fields now name status notes e)
        as (Ht & Hn & Hs & Hnt).
      rewrite Ht, Hn, Hs, Hnt. repeat split; intros ->; reflexivity.
  - exists (0 + length call_history), (new_entry now phone name status notes).
    split.
    + apply find_entry_first; [exact Hno|exact Hrefl].
    + repeat split; reflexivity.
Qed.

(** The same call as above. *)
Lemma call_history_entry_after_add_witness :
  exists i e,
    find_entry (VStr (ustr "+14155551234"))
      [VDict (update_entry (ustr "2024-05-01T10:00:00")
                (VStr (ustr "Pat Doe")) (VStr (ustr "No answer")) (VStr [])
                (new_entry (ustr "2024-04-30T09:00:00")
                           (VStr (ustr "+14155551234")) (VStr [])
                           (VStr []) (VStr [])))] 0 = Ok (Some (i, e))
    /\ get k_timestamp e = VStr (ustr "2024-05-01T10:00:00")
    /\ (truthy (VStr (ustr "Pat Doe")) = true
        -> get k_name e = VStr (ustr "Pat Doe"))
    /\ (truthy (VStr (ustr "No answer")) = true
        -> get k_status e = VStr (ustr "No answer"))
    /\ (truthy (VStr []) = true -> get k_notes e = VStr []).
Proof.
  apply (call_history_entry_after_add [] (ustr "2024-05-01T10:00:00")
           (VStr (ustr "+14155551234")) (VStr (ustr "Pat Doe"))
           (VStr (ustr "No answer")) (VStr [])
           [VDict (new_entry (ustr "2024-04-30T09:00:00")
                             (VStr (ustr "+14155551234")) (VStr [])
                             (VStr []) (VStr []))]).
  - split.
    + constructor; [|constructor]. eexists. split; [reflexivity|discriminate].
    + simpl. split; [constructor|exact I].
  - reflexivity.
  - reflexivity.
  - reflexivity.
Defined.
